(** * ASCII Blackjack: a shallow embedding of [blackjack.py]

    The Python program is embedded function by function.  Python integers
    are unbounded, hence [Z].  A card is the tuple [(rank, suit)] of two
    strings, as [get_deck] builds it.  A Python list keeps its order here:
    [deck.pop()] removes the LAST element, [hand.append(c)] adds at the end.
    The [stats] dictionary is a [gmap string Z].  Exceptions are the [Raise]
    results of a small error monad.  Text written to standard output is not
    part of the model, except for what [display_hands] prints
    ([display_hands_out]); standard input is the list of the lines still to
    be read. *)

From Stdlib Require Import ZArith Ascii String List Lia.
From stdpp Require Import base tactics option list strings pretty gmap fin_maps.
From Equations Require Import Equations.
From Equations.Prop Require Import Logic.

Local Open Scope string_scope.
Local Open Scope list_scope.
Local Open Scope Z_scope.

(** ** Exceptions and results *)

Inductive exn : Type :=
| ValueError          (* int() on a string that is no integer literal *)
| IndexError          (* pop from an empty list *)
| KeyError            (* missing dictionary key *)
| EOFError            (* input() at the end of standard input *)
| SystemExit          (* sys.exit() *)
| JSONDecodeError     (* json.load on a file that holds no JSON *)
| AttributeError.     (* .get on a value that is no dict *)

Inductive result (A : Type) : Type :=
| Ok (a : A)
| Raise (e : exn).
Arguments Ok {A} a.
Arguments Raise {A} e.

(** Sequencing in stdpp's monad notation: [x ← m; k] runs [k] on the value
    of [m] and propagates an exception of [m]. *)
#[global] Instance result_ret : MRet result := λ A a, Ok a.
#[global] Instance result_bind : MBind result := λ A B k r,
  match r with
  | Ok a => k a
  | Raise e => Raise e
  end.

#[global] Instance exn_eq_dec : EqDecision exn.
Proof. solve_decision. Defined.

(** ** Strings: the builtins the program calls *)

Module Py.

(** The white space of [str.strip()] and [int()] among the ASCII characters:
    the space, \t \n \v \f \r (9 to 13) and the four separators 28 to 31.
    Input lines and ranks are taken to be ASCII text. *)
Definition is_space (c : ascii) : bool :=
  let n := nat_of_ascii c in
  (n =? 32)%nat || ((9 <=? n)%nat && (n <=? 13)%nat)
  || ((28 <=? n)%nat && (n <=? 31)%nat).

Definition is_digit (c : ascii) : bool :=
  let n := nat_of_ascii c in (48 <=? n)%nat && (n <=? 57)%nat.

Definition digit_val (c : ascii) : Z := Z.of_nat (nat_of_ascii c) - 48.

Fixpoint lstrip (s : string) : string :=
  match s with
  | String c s' => if is_space c then lstrip s' else s
  | EmptyString => EmptyString
  end.

Definition strip (s : string) : string :=
  String.rev (lstrip (String.rev (lstrip s))).

Definition upper_char (c : ascii) : ascii :=
  let n := nat_of_ascii c in
  if (97 <=? n)%nat && (n <=? 122)%nat then ascii_of_nat (n - 32) else c.

Fixpoint upper (s : string) : string :=
  match s with
  | String c s' => String (upper_char c) (upper s')
  | EmptyString => EmptyString
  end.

(** [s.isdigit()]: non-empty and made of digits only. *)
Fixpoint all_digits (s : string) : bool :=
  match s with
  | String c s' => is_digit c && all_digits s'
  | EmptyString => true
  end.

Definition isdigit (s : string) : bool :=
  match s with
  | EmptyString => false
  | _ => all_digits s
  end.

(** The digits of an integer literal, read left to right with the value so
    far; one underscore may separate two digits ([after_digit] tells whether
    the previous character was a digit). *)
Fixpoint digits (s : string) (acc : Z) (after_digit : bool) : option Z :=
  match s with
  | EmptyString => if after_digit then Some acc else None
  | String c s' =>
      if is_digit c then digits s' (10 * acc + digit_val c) true
      else if (c =? "_")%char && after_digit then digits s' acc false
      else None
  end.

(** [int(s)] for a string: surrounding white space is dropped, then an
    optional sign, then the digits.  Anything else is a [ValueError]. *)
Definition int (s : string) : result Z :=
  let body (t : string) : option Z :=
    match t with
    | String "-" t' => Z.opp <$> digits t' 0 false
    | String "+" t' => digits t' 0 false
    | _ => digits t 0 false
    end in
  match body (strip s) with
  | Some n => Ok n
  | None => Raise ValueError
  end.

(** [str(n)] for an integer. *)
Definition str (n : Z) : string := pretty n.

(** [l.pop()]: the last element and the list without it. *)
Definition pop {A : Type} (l : list A) : result (A * list A) :=
  match reverse l with
  | [] => Raise IndexError
  | x :: r => Ok (x, reverse r)
  end.

End Py.

(** ** Cards and the deck *)

Definition HEARTS : string := "♥".
Definition DIAMONDS : string := "♦".
Definition SPADES : string := "♠".
Definition CLUBS : string := "♣".

(** A card is the tuple [(rank, suit)]. *)
Definition card : Type := string * string.

(** The inner two loops of [get_deck] for one suit. *)
Definition suit_cards (suit : string) : list card :=
  ((λ rank : Z, (Py.str rank, suit)) <$> seqZ 2 9)
  ++ ((λ rank : string, (rank, suit)) <$> ["J"; "Q"; "K"; "A"]).

(** The deck [get_deck] has built when it calls [random.shuffle]. *)
Definition fresh_deck : list card :=
  concat (suit_cards <$> [HEARTS; DIAMONDS; SPADES; CLUBS]).

(** [random.shuffle] reorders the list in place; which order comes out is
    not determined by the program, so [get_deck] may return any [deck]
    with [shuffled deck]. *)
Definition shuffled (deck : list card) : Prop := deck ≡ₚ fresh_deck.

(** ** get_hand_value *)

(** The first loop of [get_hand_value], with the two counters it updates. *)
Fixpoint count_cards (hand : list card) (value : Z) (aces : nat) : result (Z * nat) :=
  match hand with
  | [] => Ok (value, aces)
  | card :: rest =>
      let rank := card.1 in
      if bool_decide (rank = "A") then count_cards rest value (S aces)
      else if bool_decide (rank ∈ ["J"; "Q"; "K"]) then count_cards rest (value + 10) aces
      else n ← Py.int rank; count_cards rest (value + n) aces
  end.

(** The second loop: [for _ in range(aces): if value + 10 <= 21: value += 10]. *)
Fixpoint promote_aces (n : nat) (value : Z) : Z :=
  match n with
  | O => value
  | S k => promote_aces k (if bool_decide (value + 10 ≤ 21) then value + 10 else value)
  end.

Definition get_hand_value (hand : list card) : result Z :=
  '(value, aces) ← count_cards hand 0 0%nat;
  let value := value + Z.of_nat aces in
  Ok (promote_aces aces value).

(** ** display_hands

    What [display_hands] prints is not modelled, but the calls of
    [get_hand_value] it makes are: they can raise. *)
Definition display_hands (player dealer : list card) (show_dealer : bool) : result () :=
  _ ← (if show_dealer then get_hand_value dealer else Ok 0);
  _ ← get_hand_value player;
  Ok ().

(** ** player_turn *)

(** How the player phase ended: the tuple [player_turn] returns, the two
    lists it has mutated, and the input lines it has not read. *)
Record turn_end : Type := TurnEnd {
  final_bet : Z;
  surrendered : bool;
  player_after : list card;
  deck_after : list card;
  stdin_after : list string
}.

(** The [while True] loop of [player_turn]: one iteration reads one line. *)
Fixpoint player_loop (can_double : bool) (dealer : list card) (stdin : list string)
    (player deck : list card) (bet : Z) : result turn_end :=
  match stdin with
  | [] => Raise EOFError
  | line :: stdin =>
      let move := Py.upper (Py.strip line) in
      if bool_decide (move = "H") then
        '(c, deck) ← Py.pop deck;
        let player := player ++ [c] in
        _ ← display_hands player dealer false;
        v ← get_hand_value player;
        if bool_decide (v > 21) then Ok (TurnEnd bet false player deck stdin)
        else player_loop can_double dealer stdin player deck bet
      else if bool_decide (move = "S") then
        Ok (TurnEnd bet false player deck stdin)
      else if bool_decide (move = "D") && can_double then
        let bet := bet * 2 in
        '(c, deck) ← Py.pop deck;
        let player := player ++ [c] in
        _ ← display_hands player dealer false;
        Ok (TurnEnd bet false player deck stdin)
      else if bool_decide (move = "SU") then
        Ok (TurnEnd bet true player deck stdin)
      else player_loop can_double dealer stdin player deck bet
  end.

Definition player_turn (player dealer deck : list card) (bet money : Z)
    (stdin : list string) : result turn_end :=
  let can_double := bool_decide (length player = 2%nat) && bool_decide (2 * bet ≤ money) in
  _ ← display_hands player dealer false;
  player_loop can_double dealer stdin player deck bet.

(** ** dealer_turn *)

(** The [while] loop of [dealer_turn]; every iteration pops a card, so the
    length of the deck decreases. *)
Equations? dealer_loop (dealer deck : list card) : result (list card * list card)
    by wf (length deck) lt :=
  dealer_loop dealer deck with get_hand_value dealer => {
    | Raise e => Raise e
    | Ok v with bool_decide (v < 17) => {
      | false => Ok (dealer, deck)
      | true with inspect (Py.pop deck) => {
        | exist _ (Raise e) _ => Raise e
        | exist _ (Ok (c, deck')) Hpop => dealer_loop (dealer ++ [c]) deck' } } }.
Proof.
  unfold Py.pop in Hpop. destruct (reverse deck) as [|x r] eqn:Hrev; [done|].
  injection Hpop as -> <-.
  apply (f_equal reverse) in Hrev. rewrite reverse_involutive in Hrev.
  subst deck. rewrite reverse_cons, !length_app, !length_reverse. simpl. lia.
Qed.

(** [dealer_turn] returns the dealer's hand and the deck as it leaves them. *)
Definition dealer_turn (player dealer deck : list card) : result (list card * list card) :=
  v ← get_hand_value player;
  if bool_decide (v > 21) then Ok (dealer, deck)
  else dealer_loop dealer deck.

(** ** resolve_game *)

(** [stats[key] += 1] on the dictionary of counters. *)
Definition incr (key : string) (stats : gmap string Z) : result (gmap string Z) :=
  match stats !! key with
  | Some n => Ok (<[key := n + 1]> stats)
  | None => Raise KeyError
  end.

(** [resolve_game] returns the new bankroll; the dictionary it has mutated
    is returned with it. *)
Definition resolve_game (player dealer : list card) (bet money : Z)
    (stats : gmap string Z) : result (Z * gmap string Z) :=
  _ ← display_hands player dealer true;
  player_val ← get_hand_value player;
  dealer_val ← get_hand_value dealer;
  if bool_decide (player_val > 21) then
    stats ← incr "losses" stats; Ok (money - bet, stats)
  else if bool_decide (dealer_val > 21) then
    stats ← incr "wins" stats; Ok (money + bet, stats)
  else if bool_decide (player_val > dealer_val) then
    stats ← incr "wins" stats; Ok (money + bet, stats)
  else if bool_decide (player_val < dealer_val) then
    stats ← incr "losses" stats; Ok (money - bet, stats)
  else
    stats ← incr "pushes" stats; Ok (money, stats).

(** ** Save and load *)

(** The values [json.load] can return; a number with a fraction or an
    exponent is kept as its text. *)
#[local] Set Warnings "-register-all".
Inductive json : Type :=
| JNull
| JBool (b : bool)
| JInt (n : Z)
| JFloat (text : string)
| JStr (s : string)
| JList (l : list json)
| JDict (d : gmap string json).

(** The save file as [load_game] meets it: absent, or present, and then
    [json.load] either raises on its content or returns a value. *)
Inductive save_file : Type :=
| NoFile
| NotJson
| Json (data : json).

(** The dictionary [save_game] hands to [json.dump]. *)
Definition save_game (money : Z) (stats : gmap string Z) : result save_file :=
  match stats !! "wins", stats !! "losses", stats !! "pushes" with
  | Some w, Some l, Some p =>
      Ok (Json (JDict {[ "money" := JInt money; "wins" := JInt w;
                         "losses" := JInt l; "pushes" := JInt p ]}))
  | _, _, _ => Raise KeyError
  end.

(** [data.get(key, default)] on what [json.load] returned. *)
Definition get (data : json) (key : string) (fallback : json) : result json :=
  match data with
  | JDict d => Ok (default fallback (d !! key))
  | _ => Raise AttributeError
  end.

(** [load_game] returns the bankroll and the dictionary of counters, with
    whatever values the file holds for them. *)
Definition load_game (file : save_file) : result (json * gmap string json) :=
  match file with
  | NoFile =>
      Ok (JInt 5000, {[ "wins" := JInt 0; "losses" := JInt 0; "pushes" := JInt 0 ]})
  | NotJson => Raise JSONDecodeError
  | Json data =>
      money ← get data "money" (JInt 5000);
      wins ← get data "wins" (JInt 0);
      losses ← get data "losses" (JInt 0);
      pushes ← get data "pushes" (JInt 0);
      Ok (money, {[ "wins" := wins; "losses" := losses; "pushes" := pushes ]})
  end.

(** ** get_bet *)

(** The loop of [get_bet]: one iteration reads one line.  It returns the bet
    and the lines not read. *)
Fixpoint get_bet (max_bet : Z) (stdin : list string) : result (Z * list string) :=
  match stdin with
  | [] => Raise EOFError
  | line :: stdin =>
      let choice := Py.upper (Py.strip line) in
      if bool_decide (choice = "QUIT") then Raise SystemExit
      else if negb (Py.isdigit choice) then get_bet max_bet stdin
      else
        bet ← Py.int choice;
        if bool_decide (1 ≤ bet ≤ max_bet) then Ok (bet, stdin)
        else get_bet max_bet stdin
  end.

(** ** game: one iteration of its loop *)

(** The state a round ends in: bankroll, counters, the two hands, the deck,
    and the input lines the round has not read. *)
Record round_end : Type := RoundEnd {
  money_after : Z;
  stats_after : gmap string Z;
  player_hand : list card;
  dealer_hand : list card;
  deck_left : list card;
  stdin_left : list string
}.

(** [[deck.pop(), deck.pop()]]: the card popped first comes first. *)
Definition deal_two (deck : list card) : result (list card * list card) :=
  '(c1, deck) ← Py.pop deck;
  '(c2, deck) ← Py.pop deck;
  Ok ([c1; c2], deck).

(** The loop body of [game] from the deal to the new bankroll: the lines
    between [deck = get_deck()] and [save_game(money, stats)]; [deck] is
    what [get_deck()] returned. *)
Definition play_round (money : Z) (stats : gmap string Z) (bet : Z)
    (deck : list card) (stdin : list string) : result round_end :=
  '(player_hand, deck) ← deal_two deck;
  '(dealer_hand, deck) ← deal_two deck;
  t ← player_turn player_hand dealer_hand deck bet money stdin;
  if surrendered t then
    let money := money - final_bet t `div` 2 in
    stats ← incr "losses" stats;
    Ok (RoundEnd money stats (player_after t) dealer_hand (deck_after t) (stdin_after t))
  else
    '(dealer_hand, deck) ← dealer_turn (player_after t) dealer_hand (deck_after t);
    '(money, stats) ← resolve_game (player_after t) dealer_hand (final_bet t) money stats;
    Ok (RoundEnd money stats (player_after t) dealer_hand deck (stdin_after t)).

(** What one iteration of the loop of [game] does: it ends the program
    after saving, or it ends a round, saves and waits for a line. *)
Inductive iteration : Type :=
| GameOver (saved : save_file)
| NextRound (r : round_end) (saved : save_file).

Definition game_iteration (money : Z) (stats : gmap string Z)
    (deck : list card) (stdin : list string) : result iteration :=
  if bool_decide (money ≤ 0) then
    saved ← save_game money stats; Ok (GameOver saved)
  else
    '(bet, stdin) ← get_bet money stdin;
    r ← play_round money stats bet deck stdin;
    saved ← save_game (money_after r) (stats_after r);
    match stdin_left r with
    | [] => Raise EOFError
    | _ :: stdin =>
        Ok (NextRound (RoundEnd (money_after r) (stats_after r) (player_hand r)
                         (dealer_hand r) (deck_left r) stdin) saved)
    end.

(** ** ASCII card display *)

Module Text.

(** [len(s)] counts characters, not bytes: of the bytes of a UTF-8 text,
    those that do not continue a character (128 to 191 continue one). *)
Fixpoint len (s : string) : nat :=
  match s with
  | EmptyString => 0
  | String c s' =>
      let n := nat_of_ascii c in
      if (128 <=? n)%nat && (n <=? 191)%nat then len s' else S (len s')
  end.

Fixpoint spaces (n : nat) : string :=
  match n with
  | O => ""
  | S k => String " " (spaces k)
  end.

(** [s.ljust(width)]: spaces are added on the right up to [width]
    characters. *)
Definition ljust (width : nat) (s : string) : string :=
  s ++ spaces (width - len s).

Definition newline : string := String (ascii_of_nat 10) EmptyString.

End Text.

Definition BACKSIDE : string := "BACKSIDE".

(** An element of the list [display_ascii_cards] gets: the string
    [BACKSIDE] or a card. *)
Inductive face : Type :=
| Backside
| Face (c : card).

(** [str(rank)] is [rank] itself, a string. *)
Definition ascii_card (rank suit : string) : list string :=
  let rank_str := Text.ljust 2 rank in
  [ "┌─────────┐";
    "│" ++ rank_str ++ "       │";
    "│         │";
    "│    " ++ suit ++ "    │";
    "│         │";
    "│       " ++ rank_str ++ "│";
    "└─────────┘" ]%string.

(** The [art] of one iteration of the loop of [display_ascii_cards]. *)
Definition card_art (f : face) : list string :=
  match f with
  | Backside =>
      [ "┌─────────┐";
        "│░░░░░░░░░│";
        "│░░░░░░░░░│";
        "│░░░░░░░░░│";
        "│░░░░░░░░░│";
        "│░░░░░░░░░│";
        "└─────────┘" ]
  | Face (rank, suit) => ascii_card rank suit
  end.

(** The seven [rows] when the loop over the cards ends: each card adds its
    art and two spaces to every row. *)
Definition display_rows (cards : list face) : list string :=
  foldl (λ rows card, zip_with (λ row a, row ++ a ++ "  ")%string rows (card_art card))
        (replicate 7 "") cards.

Definition display_ascii_cards (cards : list face) : string :=
  String.concat Text.newline (display_rows cards).

(** What [display_hands] hands to [print], call after call, when it
    returns. *)
Definition display_hands_out (player dealer : list card) (show_dealer : bool)
    : result (list string) :=
  dealer_lines ←
    (if show_dealer then
       v ← get_hand_value dealer;
       Ok [ ("DEALER (" ++ Py.str v ++ "):")%string;
            display_ascii_cards (Face <$> dealer) ]
     else
       Ok [ "DEALER:"; display_ascii_cards (Backside :: (Face <$> drop 1 dealer)) ]);
  v ← get_hand_value player;
  Ok ([""] ++ dealer_lines
      ++ [ (Text.newline ++ "PLAYER (" ++ Py.str v ++ "):")%string;
           display_ascii_cards (Face <$> player) ]).

(** ** The hand evaluator as the specification words it *)

Module Spec.

(** "10 for J/Q/K, face value otherwise", for a card that is no ace. *)
Definition points (c : card) : result Z :=
  if bool_decide (c.1 ∈ ["J"; "Q"; "K"]) then Ok 10 else Py.int c.1.

Definition is_ace (c : card) : Prop := c.1 = "A".
#[global] Instance is_ace_dec c : Decision (is_ace c).
Proof. unfold is_ace. apply _. Defined.

Fixpoint sum_points (cards : list card) : result Z :=
  match cards with
  | [] => Ok 0
  | c :: rest => p ← points c; s ← sum_points rest; Ok (p + s)
  end.

(** "promote aces from 1 to 11 (adding 10) as long as the total stays ≤ 21":
    the promotion stops at the first ace that cannot be promoted. *)
Fixpoint promote_while (aces : nat) (total : Z) : Z :=
  match aces with
  | O => total
  | S k => if bool_decide (total + 10 ≤ 21) then promote_while k (total + 10) else total
  end.

(** "sum non-ace cards, add 1 per ace, then promote". *)
Definition soft_ace_score (hand : list card) : result Z :=
  s ← sum_points (filter (λ c, ¬ is_ace c) hand);
  let aces := length (filter is_ace hand) in
  Ok (promote_while aces (s + Z.of_nat aces)).

(** The sum with every ace counted as 1. *)
Definition low_sum (hand : list card) : result Z :=
  s ← sum_points (filter (λ c, ¬ is_ace c) hand);
  Ok (s + Z.of_nat (length (filter is_ace hand))).

Definition has_ace (hand : list card) : Prop := Exists is_ace hand.

End Spec.

(** ** Auxiliary notions for the statements *)

(** A card of the deck is an ace or is worth between 2 and 10. *)
Definition deck_card_ok (c : card) : bool :=
  bool_decide (Spec.is_ace c)
  || match Spec.points c with
     | Ok p => bool_decide (2 ≤ p ≤ 10)
     | Raise _ => false
     end.

(** The cards that [k] calls of [deck.pop()] return, in the order of the
    calls, and the deck these calls leave. *)
Definition popped (k : nat) (deck : list card) : list card := take k (reverse deck).
Definition remaining (k : nat) (deck : list card) : list card :=
  take (length deck - k) deck.

(** The counters of a first session, as [load_game] sets them up. *)
Definition stats0 : gmap string Z := {[ "wins" := 0; "losses" := 0; "pushes" := 0 ]}.

(** What [load_game] returns when there is no save: 5000 and three zero
    counters. *)
Definition defaults : json * gmap string json :=
  (JInt 5000, {[ "wins" := JInt 0; "losses" := JInt 0; "pushes" := JInt 0 ]}).

(** The ranks and the suits of [get_deck]. *)
Definition RANKS : list string :=
  ["2"; "3"; "4"; "5"; "6"; "7"; "8"; "9"; "10"; "J"; "Q"; "K"; "A"].
Definition SUITS : list string := [HEARTS; DIAMONDS; SPADES; CLUBS].



(** A line the loop of [get_bet] passes over: not QUIT, and not digits, or
    digits of a number outside 1 .. max_bet. *)
Definition no_bet (max_bet : Z) (line : string) : bool :=
  let choice := Py.upper (Py.strip line) in
  negb (bool_decide (choice = "QUIT"))
  && (negb (Py.isdigit choice)
      || match Py.int choice with
         | Ok bet => negb (bool_decide (1 ≤ bet ≤ max_bet))
         | Raise _ => false
         end).

(** A card that fits its frame: a rank of two characters at most and a suit
    of one; the back of a card always does. *)
Definition fits (f : face) : Prop :=
  match f with
  | Backside => True
  | Face (rank, suit) => (Text.len rank ≤ 2)%nat ∧ Text.len suit = 1%nat
  end.

(** The trace of a player phase that began with [player], [deck], [bet] and
    [stdin] and ended in [t]: the cards drawn came off the end of the deck,
    the last one first, one line at least was read and no more cards drawn
    than lines read, every draw but the last left a hand of 21 or less, and
    the bet was doubled once at most, only if allowed at entry and not in a
    surrender. *)
Definition turn_trace (can_double : bool) (player deck : list card) (bet : Z)
    (stdin : list string) (t : turn_end) : Prop :=
  ∃ drawn read,
    player_after t = player ++ drawn
    ∧ deck = deck_after t ++ reverse drawn
    ∧ stdin = read ++ stdin_after t
    ∧ (length drawn ≤ length read)%nat ∧ (0 < length read)%nat
    ∧ (∀ j, (0 < j < length drawn)%nat →
         ∃ v, get_hand_value (player ++ take j drawn) = Ok v ∧ v ≤ 21)
    ∧ (final_bet t = bet
       ∨ (final_bet t = bet * 2 ∧ can_double = true ∧ surrendered t = false
          ∧ drawn ≠ []))
    ∧ (surrendered t = true → final_bet t = bet).

(** The loop of [game] as a step relation: [game_rounds money stats stdin n
    money' stats' stdin'] when [n] iterations that each end a round lead
    from the first state at the top of the loop to the second; each
    iteration plays on the deck its call of [get_deck] returns. *)
Inductive game_rounds :
    Z → gmap string Z → list string → nat → Z → gmap string Z → list string → Prop :=
| rounds_none (money : Z) (stats : gmap string Z) (stdin : list string) :
    game_rounds money stats stdin 0 money stats stdin
| rounds_next (money : Z) (stats : gmap string Z) (stdin : list string)
    (deck : list card) (r : round_end) (saved : save_file)
    (n : nat) (money' : Z) (stats' : gmap string Z) (stdin' : list string) :
    game_iteration money stats deck stdin = Ok (NextRound r saved) →
    game_rounds (money_after r) (stats_after r) (stdin_left r) n money' stats' stdin' →
    game_rounds money stats stdin (S n) money' stats' stdin'.

(** * Properties *)

(** ** The error monad *)

Lemma bind_Ok {A B} (r : result A) (k : A → result B) (b : B) :
  r ≫= k = Ok b ↔ ∃ a, r = Ok a ∧ k a = Ok b.
Proof.
  destruct r as [a|e]; simpl; split.
  - eauto.
  - intros (a' & [= <-] & Hk). exact Hk.
  - discriminate.
  - intros (a' & [=] & _).
Qed.

(** ** list.pop *)

Lemma pop_nil {A} : Py.pop (@nil A) = Raise IndexError.
Proof. reflexivity. Qed.

Lemma pop_snoc {A} (l : list A) (x : A) : Py.pop (l ++ [x]) = Ok (x, l).
Proof. unfold Py.pop. rewrite reverse_snoc, reverse_involutive. reflexivity. Qed.

Lemma pop_Ok {A} (l r : list A) (x : A) : Py.pop l = Ok (x, r) → l = r ++ [x].
Proof.
  destruct l as [|y l] using rev_ind; [done|].
  rewrite pop_snoc. congruence.
Qed.

Lemma pop_reverse_cons {A} (x : A) (stack : list A) :
  Py.pop (reverse (x :: stack)) = Ok (x, reverse stack).
Proof. rewrite reverse_cons. apply pop_snoc. Qed.

(** ** get_hand_value *)

Section hand_value.
  Implicit Types (hand : list card) (c : card) (value : Z) (aces : nat).

(** The first loop sums the cards that are no aces and counts the aces. *)
Lemma count_cards_spec hand value aces :
  count_cards hand value aces =
    (s ← Spec.sum_points (filter (λ c, ¬ Spec.is_ace c) hand);
     Ok (value + s, (aces + length (filter Spec.is_ace hand))%nat)).
Proof.
  revert value aces. induction hand as [|c hand IH]; intros value aces; simpl.
  { do 2 f_equal; lia. }
  case_bool_decide as HA.
  - rewrite (filter_cons_False (λ c, ¬ Spec.is_ace c)), (filter_cons_True Spec.is_ace)
      by (unfold Spec.is_ace; auto).
    rewrite IH. destruct (Spec.sum_points _); simpl; [|done].
    do 2 f_equal. lia.
  - rewrite (filter_cons_True (λ c, ¬ Spec.is_ace c)), (filter_cons_False Spec.is_ace)
      by (unfold Spec.is_ace; auto).
    simpl. unfold Spec.points.
    case_bool_decide; simpl; [|destruct (Py.int c.1); simpl; [|done]].
    all: rewrite IH; destruct (Spec.sum_points _); simpl; [|done].
    all: do 2 f_equal; lia.
Qed.

(** Once a promotion is refused, all the later ones are. *)
Lemma promote_aces_stuck aces value : 21 < value + 10 → promote_aces aces value = value.
Proof.
  intros Hv. induction aces as [|k IH]; simpl; [done|].
  by rewrite bool_decide_eq_false_2 by lia.
Qed.

Lemma promote_aces_while aces value :
  promote_aces aces value = Spec.promote_while aces value.
Proof.
  revert value. induction aces as [|k IH]; intros value; simpl; [done|].
  case_bool_decide; [apply IH|]. apply promote_aces_stuck. lia.
Qed.

Lemma get_hand_value_soft_ace hand : get_hand_value hand = Spec.soft_ace_score hand.
Proof.
  unfold get_hand_value, Spec.soft_ace_score. rewrite count_cards_spec.
  destruct (Spec.sum_points _); simpl; [|done].
  by rewrite promote_aces_while, Z.add_0_l.
Qed.

End hand_value.

(** C3: for every hand the evaluator returns the soft-ace score of the
    specification (sum of the cards that are no aces, 1 for each ace, then
    aces promoted by 10 as long as the total stays at most 21); in
    particular (A, A) is 12, (A, A, 9) is 21 and (10, 10, 5) is 25, a bust,
    whatever the suits. *)
Theorem get_hand_value_standard_score :
  (∀ hand, get_hand_value hand = Spec.soft_ace_score hand)
  ∧ (∀ s1 s2, get_hand_value [("A", s1); ("A", s2)] = Ok 12)
  ∧ (∀ s1 s2 s3, get_hand_value [("A", s1); ("A", s2); ("9", s3)] = Ok 21)
  ∧ (∀ s1 s2 s3, get_hand_value [("10", s1); ("10", s2); ("5", s3)] = Ok 25 ∧ 25 > 21).
Proof.
  split; [exact get_hand_value_soft_ace|].
  repeat split; intros; reflexivity || lia.
Qed.

(** ** Reordering a hand *)

(** The only exception of the evaluator is the [ValueError] of [int]. *)
Lemma points_Raise (c : card) (e : exn) : Spec.points c = Raise e → e = ValueError.
Proof.
  unfold Spec.points, Py.int. case_bool_decide; [discriminate|].
  case_match; congruence.
Qed.

Lemma sum_points_perm (h1 h2 : list card) :
  h1 ≡ₚ h2 → Spec.sum_points h1 = Spec.sum_points h2.
Proof.
  induction 1 as [|x l l' _ IH|x y l|l l' l'' _ IH1 _ IH2]; simpl.
  - reflexivity.
  - by rewrite IH.
  - destruct (Spec.points x) as [p|e] eqn:Hx, (Spec.points y) as [q|e'] eqn:Hy;
      simpl; try reflexivity.
    + destruct (Spec.sum_points l); simpl; [|reflexivity]. f_equal. lia.
    + by rewrite (points_Raise _ _ Hx), (points_Raise _ _ Hy).
  - congruence.
Qed.

(** C9: the value of a hand does not depend on the order of its cards. *)
Theorem get_hand_value_order_invariant (h1 h2 : list card) :
  h1 ≡ₚ h2 → get_hand_value h1 = get_hand_value h2.
Proof.
  intros Hp. rewrite !get_hand_value_soft_ace. unfold Spec.soft_ace_score.
  rewrite (sum_points_perm (filter (λ c, ¬ Spec.is_ace c) h1)
             (filter (λ c, ¬ Spec.is_ace c) h2)) by (by rewrite Hp).
  assert (length (filter Spec.is_ace h1) = length (filter Spec.is_ace h2)) as Hlen
    by (by rewrite Hp).
  cbv zeta. by rewrite Hlen.
Qed.

Lemma get_hand_value_order_invariant_witness :
  [("A", HEARTS); ("9", CLUBS); ("A", SPADES)] ≡ₚ [("9", CLUBS); ("A", SPADES); ("A", HEARTS)]
  ∧ get_hand_value [("A", HEARTS); ("9", CLUBS); ("A", SPADES)]
    = get_hand_value [("9", CLUBS); ("A", SPADES); ("A", HEARTS)].
Proof.
  assert (Hp : [("A", HEARTS); ("9", CLUBS); ("A", SPADES)]
               ≡ₚ [("9", CLUBS); ("A", SPADES); ("A", HEARTS)]).
  { apply (Permutation_cons_append [("9", CLUBS); ("A", SPADES)]). }
  split; [exact Hp|].
  exact (get_hand_value_order_invariant _ _ Hp).
Defined.

(** ** Hands dealt from the deck *)

Lemma fresh_deck_ok : forallb deck_card_ok fresh_deck = true.
Proof. vm_compute. reflexivity. Qed.

Lemma deck_card_points (c : card) :
  c ∈ fresh_deck → Spec.is_ace c ∨ ∃ p, Spec.points c = Ok p ∧ 2 ≤ p ≤ 10.
Proof.
  intros Hc. pose proof fresh_deck_ok as Hok.
  rewrite forallb_forall in Hok. apply list_elem_of_In, Hok in Hc.
  unfold deck_card_ok in Hc. apply orb_prop in Hc as [Hc|Hc].
  - left. by apply bool_decide_eq_true_1 in Hc.
  - right. destruct (Spec.points c) as [p|]; [|discriminate].
    exists p. split; [done|]. by apply bool_decide_eq_true_1 in Hc.
Qed.

(** The cards of such a hand that are no aces have a sum, which is not
    negative. *)
Lemma sum_points_deck (hand : list card) :
  Forall (λ c, c ∈ fresh_deck) hand →
  ∃ s, Spec.sum_points (filter (λ c, ¬ Spec.is_ace c) hand) = Ok s ∧ 0 ≤ s.
Proof.
  induction 1 as [|c hand Hc _ (s & Hs & Hpos)]; [by exists 0|].
  destruct (decide (Spec.is_ace c)) as [Hace|Hace].
  - rewrite filter_cons_False by auto. eauto.
  - rewrite filter_cons_True by auto.
    destruct (deck_card_points c Hc) as [|(p & Hp & Hrange)]; [done|].
    exists (p + s). simpl. rewrite Hp, Hs. split; [done|lia].
Qed.

Lemma get_hand_value_deck (hand : list card) :
  Forall (λ c, c ∈ fresh_deck) hand → ∃ v, get_hand_value hand = Ok v.
Proof.
  intros (s & Hs & _)%sum_points_deck.
  rewrite get_hand_value_soft_ace. unfold Spec.soft_ace_score. rewrite Hs. simpl. eauto.
Qed.

(** Whatever the shuffle, the deck has its 52 different cards. *)
Lemma shuffled_deck (deck : list card) :
  shuffled deck → length deck = 52%nat ∧ NoDup deck ∧ Forall (λ c, c ∈ fresh_deck) deck.
Proof.
  unfold shuffled. intros Hp. split_and!.
  - by rewrite Hp.
  - rewrite Hp. apply (bool_decide_unpack _). vm_compute. exact I.
  - apply Forall_forall. intros c Hc. by rewrite <- Hp.
Qed.

(** With at least as many points as aces, only the first promotion can
    succeed: a second one would need a total of at most 1. *)
Lemma promote_while_once (aces : nat) (total : Z) :
  Z.of_nat aces ≤ total →
  Spec.promote_while aces total =
    if bool_decide ((0 < aces)%nat ∧ total + 10 ≤ 21) then total + 10 else total.
Proof.
  intros Hle. destruct aces as [|[|k]]; cbn [Spec.promote_while];
    repeat case_bool_decide; reflexivity || lia.
Qed.

Lemma has_ace_filter (hand : list card) :
  Spec.has_ace hand ↔ (0 < length (filter Spec.is_ace hand))%nat.
Proof.
  unfold Spec.has_ace. induction hand as [|c hand IH]; simpl.
  - split; [by intros ?%Exists_nil|lia].
  - rewrite Exists_cons, IH. destruct (decide (Spec.is_ace c)).
    + rewrite filter_cons_True by done. simpl. split; [lia|auto].
    + rewrite filter_cons_False by done. tauto.
Qed.

(** C10: for a hand of cards of the deck, with L its sum when every ace
    counts 1, the evaluator returns L + 10 when the hand has an ace and
    L + 10 is at most 21, and L otherwise: never more than one ace counts
    11, however many aces the hand holds. *)
Theorem get_hand_value_one_ace_high (hand : list card) :
  Forall (λ c, c ∈ fresh_deck) hand →
  ∃ L, Spec.low_sum hand = Ok L
     ∧ get_hand_value hand =
         Ok (if bool_decide (Spec.has_ace hand ∧ L + 10 ≤ 21) then L + 10 else L).
Proof.
  intros (s & Hs & Hpos)%sum_points_deck.
  exists (s + Z.of_nat (length (filter Spec.is_ace hand))).
  rewrite get_hand_value_soft_ace. unfold Spec.low_sum, Spec.soft_ace_score.
  rewrite Hs. simpl. split; [reflexivity|].
  rewrite promote_while_once by lia. f_equal.
  repeat case_bool_decide; try reflexivity; rewrite has_ace_filter in *; tauto.
Qed.

Lemma get_hand_value_one_ace_high_witness :
  ∃ L, Spec.low_sum [("A", HEARTS); ("A", SPADES); ("A", CLUBS); ("8", DIAMONDS)] = Ok L
     ∧ get_hand_value [("A", HEARTS); ("A", SPADES); ("A", CLUBS); ("8", DIAMONDS)] =
         Ok (if bool_decide
                  (Spec.has_ace [("A", HEARTS); ("A", SPADES); ("A", CLUBS); ("8", DIAMONDS)]
                   ∧ L + 10 ≤ 21)
             then L + 10 else L).
Proof.
  apply (get_hand_value_one_ace_high
           [("A", HEARTS); ("A", SPADES); ("A", CLUBS); ("8", DIAMONDS)]).
  apply (bool_decide_unpack _). vm_compute. exact I.
Defined.

(** Outside the deck the bound of C10 is lost: [int] reads the rank -9, and
    two aces are promoted. *)
Example two_aces_high_outside_deck :
  get_hand_value [("A", SPADES); ("A", HEARTS); ("-9", CLUBS)] = Ok 13.
Proof. reflexivity. Qed.

(** ** dealer_turn *)

(** The loop of [dealer_turn], unfolded once. *)
Lemma dealer_loop_once (dealer deck : list card) :
  dealer_loop dealer deck =
    (v ← get_hand_value dealer;
     if bool_decide (v < 17) then
       '(c, deck') ← Py.pop deck; dealer_loop (dealer ++ [c]) deck'
     else Ok (dealer, deck)).
Proof.
  funelim (dealer_loop dealer deck);
    repeat (match goal with
            | H : get_hand_value _ = _ |- _ => rewrite H; clear H
            | H : bool_decide _ = _ |- _ => rewrite H; clear H
            end; simpl); try reflexivity.
  all: match goal with H : Py.pop _ = _ |- _ => rewrite H end; reflexivity.
Qed.

Lemma popped_pop (deck deck' : list card) (c : card) :
  Py.pop deck = Ok (c, deck') → popped 1 deck = [c] ∧ remaining 1 deck = deck'.
Proof.
  intros ->%pop_Ok. unfold popped, remaining.
  rewrite reverse_snoc, length_app. simpl. split; [reflexivity|].
  replace (length deck' + 1 - 1)%nat with (length deck') by lia.
  by rewrite take_app_length.
Qed.

(** A hand that has a value keeps one when its last cards are removed. *)
Lemma sum_points_app (h1 h2 : list card) :
  Spec.sum_points (h1 ++ h2) =
    (s1 ← Spec.sum_points h1; s2 ← Spec.sum_points h2; Ok (s1 + s2)).
Proof.
  induction h1 as [|c h1 IH]; simpl.
  - destruct (Spec.sum_points h2); reflexivity.
  - destruct (Spec.points c); simpl; [|reflexivity]. rewrite IH.
    destruct (Spec.sum_points h1); simpl; [|reflexivity].
    destruct (Spec.sum_points h2); simpl; [|reflexivity]. f_equal. lia.
Qed.

Lemma get_hand_value_prefix (h1 h2 : list card) (v : Z) :
  get_hand_value (h1 ++ h2) = Ok v → ∃ v1, get_hand_value h1 = Ok v1.
Proof.
  rewrite !get_hand_value_soft_ace. unfold Spec.soft_ace_score.
  rewrite !filter_app, sum_points_app.
  destruct (Spec.sum_points (filter _ h1)); simpl; [eauto|discriminate].
Qed.

(** The loop on the deck seen as a stack, its top first: if some number
    [k] of cards brings the dealer to 17 or more, the loop stops at the
    first such number. *)
Lemma dealer_loop_stack (k : nat) : ∀ (stack dealer : list card),
  (k ≤ length stack)%nat →
  (∃ v, get_hand_value (dealer ++ take k stack) = Ok v ∧ 17 ≤ v) →
  ∃ n, (n ≤ k)%nat
    ∧ dealer_loop dealer (reverse stack) = Ok (dealer ++ take n stack, reverse (drop n stack))
    ∧ (∃ v, get_hand_value (dealer ++ take n stack) = Ok v ∧ 17 ≤ v)
    ∧ (∀ j, (j < n)%nat → ∃ v, get_hand_value (dealer ++ take j stack) = Ok v ∧ v < 17).
Proof.
  induction k as [|k IH]; intros stack dealer Hlen (v & Hv & Hv17).
  - exists 0%nat. rewrite take_0, app_nil_r in *. rewrite drop_0, dealer_loop_once, Hv. simpl.
    rewrite bool_decide_eq_false_2 by lia.
    split_and!; [lia|reflexivity|eauto|lia].
  - destruct (get_hand_value_prefix _ _ _ Hv) as [v0 Hv0].
    destruct (decide (v0 < 17)) as [Hlt|Hge].
    + destruct stack as [|c stack]; [simpl in Hlen; lia|].
      assert (Hmid : ∀ l, (dealer ++ [c]) ++ l = dealer ++ c :: l)
        by (intros l; by rewrite <- app_assoc).
      simpl in Hlen, Hv. rewrite <- Hmid in Hv.
      destruct (IH stack (dealer ++ [c])) as (n & Hn & Hloop & Hstop & Hbefore);
        [lia|eauto|].
      rewrite Hmid in Hloop. setoid_rewrite Hmid in Hstop. setoid_rewrite Hmid in Hbefore.
      exists (S n). rewrite dealer_loop_once, Hv0. simpl.
      rewrite bool_decide_eq_true_2 by done.
      rewrite pop_reverse_cons. simpl. rewrite Hloop.
      split_and!; [lia|reflexivity|exact Hstop|].
      intros [|j] Hj; simpl.
      * rewrite app_nil_r. eauto.
      * apply Hbefore. lia.
    + exists 0%nat. rewrite take_0, app_nil_r, drop_0, dealer_loop_once, Hv0. simpl.
      rewrite bool_decide_eq_false_2 by done.
      split_and!; [lia|reflexivity|exists v0; split; [done|lia]|lia].
Qed.

(** C4: when the player has not bust and some number of cards from the top
    of the deck brings the dealer to 17 or more, [dealer_turn] returns; it
    has drawn the cards one after the other while the dealer's value was
    below 17 and has stopped at the first value of 17 or more, so that the
    dealer's value at exit is at least 17; it has drawn no card exactly when
    the dealer's value was at least 17 at entry. *)
Theorem dealer_turn_draws_to_17 (player dealer deck : list card) (pv : Z) (k : nat) :
  get_hand_value player = Ok pv → pv ≤ 21 →
  (k ≤ length deck)%nat →
  (∃ v, get_hand_value (dealer ++ popped k deck) = Ok v ∧ 17 ≤ v) →
  ∃ n, (n ≤ k)%nat
    ∧ dealer_turn player dealer deck = Ok (dealer ++ popped n deck, remaining n deck)
    ∧ (∃ v, get_hand_value (dealer ++ popped n deck) = Ok v ∧ 17 ≤ v)
    ∧ (∀ j, (j < n)%nat → ∃ v, get_hand_value (dealer ++ popped j deck) = Ok v ∧ v < 17)
    ∧ (n = 0%nat ↔ ∃ v, get_hand_value dealer = Ok v ∧ 17 ≤ v).
Proof.
  intros Hpv Hnobust Hlen Henough. unfold popped, remaining in *.
  destruct (dealer_loop_stack k (reverse deck) dealer) as (n & Hn & Hloop & Hstop & Hbefore);
    [by rewrite length_reverse|done|].
  exists n. unfold dealer_turn. rewrite Hpv. simpl.
  rewrite bool_decide_eq_false_2 by lia.
  rewrite reverse_involutive, drop_reverse, reverse_involutive in Hloop.
  split_and!; [done..|].
  split.
  - intros ->. by rewrite take_0, app_nil_r in Hstop.
  - intros (v & Hv & Hv17). destruct n as [|n]; [done|].
    destruct (Hbefore 0%nat) as (v' & Hv' & ?); [lia|].
    rewrite take_0, app_nil_r in Hv'. assert (v = v') by congruence. lia.
Qed.

Lemma dealer_turn_draws_to_17_witness :
  ∃ n, (n ≤ 3)%nat
    ∧ dealer_turn [("10", HEARTS); ("9", HEARTS)] [("2", HEARTS); ("3", SPADES)] fresh_deck
      = Ok ([("2", HEARTS); ("3", SPADES)] ++ popped n fresh_deck, remaining n fresh_deck)
    ∧ (∃ v, get_hand_value ([("2", HEARTS); ("3", SPADES)] ++ popped n fresh_deck) = Ok v
            ∧ 17 ≤ v)
    ∧ (∀ j, (j < n)%nat →
         ∃ v, get_hand_value ([("2", HEARTS); ("3", SPADES)] ++ popped j fresh_deck) = Ok v
              ∧ v < 17)
    ∧ (n = 0%nat ↔ ∃ v, get_hand_value [("2", HEARTS); ("3", SPADES)] = Ok v ∧ 17 ≤ v).
Proof.
  apply (dealer_turn_draws_to_17 [("10", HEARTS); ("9", HEARTS)]
           [("2", HEARTS); ("3", SPADES)] fresh_deck 19 3).
  - reflexivity.
  - lia.
  - vm_compute. lia.
  - exists 26. split; [vm_compute; reflexivity | lia].
Defined.

(** The dealer stands on a soft 17: an ace and a six draw no card. *)
Example dealer_stands_on_soft_17 :
  get_hand_value [("A", SPADES); ("6", HEARTS)] = Ok 17
  ∧ dealer_turn [("10", HEARTS); ("8", CLUBS)] [("A", SPADES); ("6", HEARTS)] fresh_deck
    = Ok ([("A", SPADES); ("6", HEARTS)], fresh_deck).
Proof. split; vm_compute; reflexivity. Qed.

(** ** resolve_game *)

Lemma incr_Some (key : string) (stats : gmap string Z) (n : Z) :
  stats !! key = Some n → incr key stats = Ok (<[key := n + 1]> stats).
Proof. unfold incr. by intros ->. Qed.

Lemma display_hands_Ok (player dealer : list card) (show : bool) (pv dv : Z) :
  get_hand_value player = Ok pv → get_hand_value dealer = Ok dv →
  display_hands player dealer show = Ok ().
Proof. unfold display_hands. intros -> ->. by destruct show. Qed.

(** The outcome of a round, as the table of the specification names it. *)
Lemma resolve_game_cases (player dealer : list card) (bet money : Z)
    (stats : gmap string Z) (pv dv : Z) :
  get_hand_value player = Ok pv → get_hand_value dealer = Ok dv →
  resolve_game player dealer bet money stats =
    if bool_decide (21 < pv ∨ (dv ≤ 21 ∧ pv < dv)) then
      stats ← incr "losses" stats; Ok (money - bet, stats)
    else if bool_decide (21 < dv ∨ dv < pv) then
      stats ← incr "wins" stats; Ok (money + bet, stats)
    else stats ← incr "pushes" stats; Ok (money, stats).
Proof.
  intros Hp Hd. unfold resolve_game.
  rewrite (display_hands_Ok _ _ _ _ _ Hp Hd), Hp, Hd. simpl.
  repeat case_bool_decide; reflexivity || lia.
Qed.

(** C2: for final hands with values pv and dv, [resolve_game] returns, and
    its result follows the ordered table: player above 21, loss; else dealer
    above 21, win; else player above dealer, win; else player below dealer,
    loss; else push.  A win adds the bet, a loss takes it, a push leaves the
    bankroll; exactly one of the three counters grows, by exactly 1, and no
    other entry of the dictionary changes. *)
Theorem resolve_game_table (player dealer : list card) (bet money : Z)
    (stats : gmap string Z) (pv dv w l p : Z) :
  get_hand_value player = Ok pv → get_hand_value dealer = Ok dv →
  stats !! "wins" = Some w → stats !! "losses" = Some l → stats !! "pushes" = Some p →
  ∃ money' stats',
    resolve_game player dealer bet money stats = Ok (money', stats')
    ∧ (21 < pv → money' = money - bet ∧ stats' = <["losses" := l + 1]> stats)
    ∧ (pv ≤ 21 → 21 < dv → money' = money + bet ∧ stats' = <["wins" := w + 1]> stats)
    ∧ (pv ≤ 21 → dv ≤ 21 → dv < pv →
         money' = money + bet ∧ stats' = <["wins" := w + 1]> stats)
    ∧ (pv ≤ 21 → dv ≤ 21 → pv < dv →
         money' = money - bet ∧ stats' = <["losses" := l + 1]> stats)
    ∧ (pv ≤ 21 → dv ≤ 21 → pv = dv →
         money' = money ∧ stats' = <["pushes" := p + 1]> stats)
    ∧ ((stats' !! "wins" = Some (w + 1) ∧ stats' !! "losses" = Some l
          ∧ stats' !! "pushes" = Some p)
       ∨ (stats' !! "wins" = Some w ∧ stats' !! "losses" = Some (l + 1)
          ∧ stats' !! "pushes" = Some p)
       ∨ (stats' !! "wins" = Some w ∧ stats' !! "losses" = Some l
          ∧ stats' !! "pushes" = Some (p + 1))).
Proof.
  intros Hp Hd Hw Hl Hpush. rewrite (resolve_game_cases _ _ _ _ _ _ _ Hp Hd).
  repeat case_bool_decide.
  - rewrite (incr_Some _ _ _ Hl). simpl. do 2 eexists. split; [reflexivity|].
    split_and!; try (intros; lia); try done.
    right; left. by rewrite lookup_insert_eq, !lookup_insert_ne.
  - rewrite (incr_Some _ _ _ Hw). simpl. do 2 eexists. split; [reflexivity|].
    split_and!; try (intros; lia); try done.
    left. by rewrite lookup_insert_eq, !lookup_insert_ne.
  - rewrite (incr_Some _ _ _ Hpush). simpl. do 2 eexists. split; [reflexivity|].
    split_and!; try (intros; lia); try done.
    right; right. by rewrite lookup_insert_eq, !lookup_insert_ne.
Qed.

Lemma resolve_game_table_witness :
  ∃ money' stats',
    resolve_game [("9", HEARTS); ("9", SPADES)] [("10", CLUBS); ("6", HEARTS); ("5", SPADES)]
      10 100 stats0 = Ok (money', stats')
    ∧ money' = 90 ∧ stats' = <["losses" := 1]> stats0.
Proof.
  destruct (resolve_game_table [("9", HEARTS); ("9", SPADES)]
              [("10", CLUBS); ("6", HEARTS); ("5", SPADES)] 10 100 stats0 18 21 0 0 0)
    as (money' & stats' & Hr & _ & _ & _ & Hloss & _); try reflexivity.
  exists money', stats'. split; [exact Hr|]. apply Hloss; lia.
Defined.

(** ** player_turn *)

Ltac inv_result H :=
  repeat (first
    [ match type of H with
      | _ ≫= _ = Ok _ =>
          let a := fresh "a" in let Ha := fresh "H" a in
          apply bind_Ok in H as (a & Ha & H)
      | (let '(_, _) := ?p in _) = _ => destruct p
      | Ok _ = Ok _ => injection H as H
      end ]; cbn beta iota in H).

(** What the loop of [player_turn] can return: the bet as it was, or, when
    doubling was allowed at entry, twice the bet without surrender. *)
Lemma player_loop_bet (can_double : bool) (dealer : list card) (stdin : list string) :
  ∀ (player deck : list card) (bet : Z) (t : turn_end),
    player_loop can_double dealer stdin player deck bet = Ok t →
    final_bet t = bet
    ∨ (can_double = true ∧ surrendered t = false ∧ final_bet t = bet * 2).
Proof.
  induction stdin as [|line stdin IH]; intros player deck bet t Ht; simpl in Ht.
  { discriminate. }
  repeat case_bool_decide; try (destruct can_double; cbn [andb] in Ht);
    inv_result Ht; repeat (case_bool_decide; inv_result Ht);
    try (by eapply IH); subst t; simpl; auto.
Qed.

Lemma player_turn_bet (player dealer deck : list card) (bet money : Z)
    (stdin : list string) (t : turn_end) :
  player_turn player dealer deck bet money stdin = Ok t →
  final_bet t = bet
  ∨ (length player = 2%nat ∧ 2 * bet ≤ money ∧ surrendered t = false
     ∧ final_bet t = bet * 2).
Proof.
  unfold player_turn. intros Ht. inv_result Ht.
  apply player_loop_bet in Ht as [Ht|(Hcd & Hs & Ht)]; [by left|right].
  apply andb_prop in Hcd as [Hlen Hmoney].
  apply bool_decide_eq_true_1 in Hlen. apply bool_decide_eq_true_1 in Hmoney. done.
Qed.

(** A line that reads D is skipped like any unknown line when doubling was
    not allowed at entry: no card is drawn, the bet stays. *)
Lemma player_loop_double_refused (dealer : list card) (line : string)
    (stdin : list string) (player deck : list card) (bet : Z) :
  Py.upper (Py.strip line) = "D" →
  player_loop false dealer (line :: stdin) player deck bet
  = player_loop false dealer stdin player deck bet.
Proof. intros Hline. simpl. rewrite Hline. reflexivity. Qed.

(** Without twice the bet in the bankroll, no input makes the bet double. *)
Lemma player_turn_no_double_without_funds (player dealer deck : list card)
    (bet money : Z) (stdin : list string) (t : turn_end) :
  money < 2 * bet →
  player_turn player dealer deck bet money stdin = Ok t → final_bet t = bet.
Proof. intros Hm [Ht|(_ & Hfunds & _)]%player_turn_bet; [done|lia]. Qed.

(** C1 (the code departs from it): with 100 in the bankroll and a bet of 10,
    the player hits, then holds three cards, and doubles: the double is
    performed, the bet becomes 20 and a fourth card is drawn. *)
Theorem player_turn_double_after_hit :
  player_turn [("10", HEARTS); ("2", SPADES)] [("9", HEARTS); ("7", CLUBS)]
    [("5", DIAMONDS); ("3", CLUBS); ("4", DIAMONDS)] 10 100 ["H"; "D"]
  = Ok {| final_bet := 20; surrendered := false;
          player_after := [("10", HEARTS); ("2", SPADES); ("4", DIAMONDS); ("3", CLUBS)];
          deck_after := [("5", DIAMONDS)];
          stdin_after := [] |}.
Proof. vm_compute. reflexivity. Qed.

(** ** A round *)

Lemma dealer_turn_bust (player dealer deck : list card) (pv : Z) :
  get_hand_value player = Ok pv → 21 < pv →
  dealer_turn player dealer deck = Ok (dealer, deck).
Proof.
  intros Hp Hbust. unfold dealer_turn. rewrite Hp. simpl.
  by rewrite bool_decide_eq_true_2 by lia.
Qed.

Lemma resolve_game_bust (player dealer : list card) (bet money : Z)
    (stats : gmap string Z) (pv dv l : Z) :
  get_hand_value player = Ok pv → 21 < pv → get_hand_value dealer = Ok dv →
  stats !! "losses" = Some l →
  resolve_game player dealer bet money stats = Ok (money - bet, <["losses" := l + 1]> stats).
Proof.
  intros Hp Hbust Hd Hl. rewrite (resolve_game_cases _ _ _ _ _ _ _ Hp Hd).
  rewrite bool_decide_eq_true_2 by lia. by rewrite (incr_Some _ _ _ Hl).
Qed.

(** The bankroll [resolve_game] returns differs from the one it got by the
    bet at most. *)
Lemma resolve_game_money (player dealer : list card) (bet money : Z)
    (stats stats' : gmap string Z) (money' : Z) :
  resolve_game player dealer bet money stats = Ok (money', stats') →
  money' = money - bet ∨ money' = money + bet ∨ money' = money.
Proof.
  unfold resolve_game. intros H. inv_result H.
  repeat case_bool_decide; inv_result H; subst; auto.
Qed.

(** The round of a player who surrenders. *)
Lemma play_round_surrender (money : Z) (stats : gmap string Z) (bet : Z)
    (deck : list card) (stdin : list string) (ph dh d1 d2 : list card)
    (t : turn_end) (l : Z) :
  deal_two deck = Ok (ph, d1) → deal_two d1 = Ok (dh, d2) →
  player_turn ph dh d2 bet money stdin = Ok t → surrendered t = true →
  stats !! "losses" = Some l →
  play_round money stats bet deck stdin =
    Ok (RoundEnd (money - final_bet t `div` 2) (<["losses" := l + 1]> stats)
          (player_after t) dh (deck_after t) (stdin_after t)).
Proof.
  intros Hd1 Hd2 Ht Hs Hl. unfold play_round.
  rewrite Hd1. simpl. rewrite Hd2. simpl. rewrite Ht. simpl. rewrite Hs.
  by rewrite (incr_Some _ _ _ Hl).
Qed.

(** The round of a player who has neither surrendered nor stayed at 21 or
    below: no dealer phase, and a loss. *)
Lemma play_round_bust (money : Z) (stats : gmap string Z) (bet : Z)
    (deck : list card) (stdin : list string) (ph dh d1 d2 : list card)
    (t : turn_end) (pv dv l : Z) :
  deal_two deck = Ok (ph, d1) → deal_two d1 = Ok (dh, d2) →
  player_turn ph dh d2 bet money stdin = Ok t → surrendered t = false →
  get_hand_value (player_after t) = Ok pv → 21 < pv →
  get_hand_value dh = Ok dv → stats !! "losses" = Some l →
  play_round money stats bet deck stdin =
    Ok (RoundEnd (money - final_bet t) (<["losses" := l + 1]> stats)
          (player_after t) dh (deck_after t) (stdin_after t)).
Proof.
  intros Hd1 Hd2 Ht Hs Hp Hbust Hd Hl. unfold play_round.
  rewrite Hd1. simpl. rewrite Hd2. simpl. rewrite Ht. simpl. rewrite Hs.
  rewrite (dealer_turn_bust _ _ _ _ Hp Hbust). simpl.
  by rewrite (resolve_game_bust _ _ _ _ _ _ _ _ Hp Hbust Hd Hl).
Qed.

(** C5: in a round that ends by a surrender, the bet [player_turn] returns
    is the bet as placed, never a doubled one; the bankroll loses exactly
    the floor of half that bet, whatever its parity; the losses counter
    gains 1 and nothing else in the counters changes; and the round ends
    with the dealer's hand as dealt and the deck as the player phase left
    it: neither the dealer phase nor the resolution has run. *)
Theorem surrender_costs_half_bet (money : Z) (stats : gmap string Z) (bet : Z)
    (deck : list card) (stdin : list string) (ph dh d1 d2 : list card)
    (t : turn_end) (l : Z) :
  deal_two deck = Ok (ph, d1) → deal_two d1 = Ok (dh, d2) →
  player_turn ph dh d2 bet money stdin = Ok t → surrendered t = true →
  stats !! "losses" = Some l →
  final_bet t = bet
  ∧ 2 * (bet `div` 2) ≤ bet < 2 * (bet `div` 2) + 2
  ∧ play_round money stats bet deck stdin =
      Ok {| money_after := money - bet `div` 2;
            stats_after := <["losses" := l + 1]> stats;
            player_hand := player_after t;
            dealer_hand := dh;
            deck_left := deck_after t;
            stdin_left := stdin_after t |}.
Proof.
  intros Hd1 Hd2 Ht Hs Hl.
  assert (Hbet : final_bet t = bet).
  { destruct (player_turn_bet _ _ _ _ _ _ _ Ht) as [|(_ & _ & Hns & _)]; congruence. }
  split; [exact Hbet|]. split.
  - pose proof (Z.mul_div_le bet 2). pose proof (Z.mul_succ_div_gt bet 2). lia.
  - rewrite (play_round_surrender _ _ _ _ _ _ _ _ _ _ _ Hd1 Hd2 Ht Hs Hl).
    by rewrite Hbet.
Qed.

Lemma surrender_costs_half_bet_witness :
  play_round 100 stats0 21
    [("7", CLUBS); ("10", DIAMONDS); ("9", HEARTS); ("10", HEARTS)] [" Su "] =
    Ok {| money_after := 90;
          stats_after := <["losses" := 1]> stats0;
          player_hand := [("10", HEARTS); ("9", HEARTS)];
          dealer_hand := [("10", DIAMONDS); ("7", CLUBS)];
          deck_left := [];
          stdin_left := [] |}.
Proof.
  exact (proj2 (proj2 (surrender_costs_half_bet 100 stats0 21
    [("7", CLUBS); ("10", DIAMONDS); ("9", HEARTS); ("10", HEARTS)] [" Su "]
    [("10", HEARTS); ("9", HEARTS)] [("10", DIAMONDS); ("7", CLUBS)]
    [("7", CLUBS); ("10", DIAMONDS)] []
    (TurnEnd 21 true [("10", HEARTS); ("9", HEARTS)] [] []) 0
    eq_refl eq_refl eq_refl eq_refl eq_refl))).
Defined.

(** C7: a round played from a bankroll m > 0 with a bet b, 1 ≤ b ≤ m, ends
    with a bankroll that is not negative, whether by surrender or by
    resolution with the bet as placed or doubled (doubled only when
    m ≥ 2b). *)
Theorem bankroll_never_negative (m : Z) (stats : gmap string Z) (b : Z)
    (deck : list card) (stdin : list string) (r : round_end) :
  0 < m → 1 ≤ b ≤ m → play_round m stats b deck stdin = Ok r → 0 ≤ money_after r.
Proof.
  intros Hm Hb Hr. unfold play_round in Hr. inv_result Hr.
  match goal with H : player_turn _ _ _ _ _ _ = Ok ?t |- _ =>
    apply player_turn_bet in H as Hbet; destruct (surrendered t) eqn:Hs end.
  - inv_result Hr. subst r. simpl.
    destruct Hbet as [->|(_ & _ & [=] & _)].
    assert (b `div` 2 ≤ b) by (apply Z.div_le_upper_bound; lia). lia.
  - inv_result Hr. subst r. simpl.
    match goal with H : resolve_game _ _ _ _ _ = _ |- _ =>
      apply resolve_game_money in H end.
    lia.
Qed.

Lemma bankroll_never_negative_witness :
  ∃ r, play_round 20 stats0 10
         [("5", DIAMONDS); ("7", CLUBS); ("10", DIAMONDS); ("9", HEARTS); ("10", HEARTS)]
         ["d"] = Ok r
     ∧ money_after r = 0 ∧ 0 ≤ money_after r.
Proof.
  eexists. split; [vm_compute; reflexivity|]. split; [reflexivity|].
  apply (bankroll_never_negative 20 stats0 10
           [("5", DIAMONDS); ("7", CLUBS); ("10", DIAMONDS); ("9", HEARTS); ("10", HEARTS)]
           ["d"]).
  - lia.
  - lia.
  - vm_compute. reflexivity.
Defined.

(** C8: when the player's final hand is worth more than 21, [dealer_turn]
    returns at once with the dealer's hand and the deck unchanged,
    [resolve_game] returns the bankroll less the bet and adds 1 to the
    losses, and so the round ends with the dealer's hand as dealt, the deck
    as the player phase left it, and that loss. *)
Theorem bust_skips_dealer_phase (money : Z) (stats : gmap string Z) (bet : Z)
    (deck : list card) (stdin : list string) (ph dh d1 d2 : list card)
    (t : turn_end) (pv dv l : Z) :
  deal_two deck = Ok (ph, d1) → deal_two d1 = Ok (dh, d2) →
  player_turn ph dh d2 bet money stdin = Ok t → surrendered t = false →
  get_hand_value (player_after t) = Ok pv → 21 < pv →
  get_hand_value dh = Ok dv → stats !! "losses" = Some l →
  dealer_turn (player_after t) dh (deck_after t) = Ok (dh, deck_after t)
  ∧ resolve_game (player_after t) dh (final_bet t) money stats
    = Ok (money - final_bet t, <["losses" := l + 1]> stats)
  ∧ play_round money stats bet deck stdin =
      Ok {| money_after := money - final_bet t;
            stats_after := <["losses" := l + 1]> stats;
            player_hand := player_after t;
            dealer_hand := dh;
            deck_left := deck_after t;
            stdin_left := stdin_after t |}.
Proof.
  intros Hd1 Hd2 Ht Hs Hp Hbust Hd Hl. split_and!.
  - by eapply dealer_turn_bust.
  - by eapply resolve_game_bust.
  - by eapply play_round_bust.
Qed.

Lemma bust_skips_dealer_phase_witness :
  play_round 100 stats0 10
    [("6", SPADES); ("5", DIAMONDS); ("7", CLUBS); ("10", DIAMONDS); ("9", HEARTS);
     ("10", HEARTS)] ["h"] =
    Ok {| money_after := 90;
          stats_after := <["losses" := 1]> stats0;
          player_hand := [("10", HEARTS); ("9", HEARTS); ("5", DIAMONDS)];
          dealer_hand := [("10", DIAMONDS); ("7", CLUBS)];
          deck_left := [("6", SPADES)];
          stdin_left := [] |}.
Proof.
  refine (proj2 (proj2 (bust_skips_dealer_phase 100 stats0 10
    [("6", SPADES); ("5", DIAMONDS); ("7", CLUBS); ("10", DIAMONDS); ("9", HEARTS);
     ("10", HEARTS)] ["h"]
    [("10", HEARTS); ("9", HEARTS)] [("10", DIAMONDS); ("7", CLUBS)]
    [("6", SPADES); ("5", DIAMONDS); ("7", CLUBS); ("10", DIAMONDS)]
    [("6", SPADES); ("5", DIAMONDS)]
    (TurnEnd 10 false [("10", HEARTS); ("9", HEARTS); ("5", DIAMONDS)] [("6", SPADES)] [])
    24 17 0 eq_refl eq_refl eq_refl eq_refl eq_refl _ eq_refl eq_refl))).
  lia.
Defined.

(** ** The loop of game *)

Lemma get_bet_range (max_bet : Z) (stdin stdin' : list string) (bet : Z) :
  get_bet max_bet stdin = Ok (bet, stdin') → 1 ≤ bet ≤ max_bet.
Proof.
  induction stdin as [|line stdin IH]; simpl; [discriminate|].
  case_bool_decide; [discriminate|].
  destruct (Py.isdigit _); simpl; [|exact IH].
  destruct (Py.int _) as [n|]; simpl; [|discriminate].
  case_bool_decide; [|exact IH]. by intros [= <- _].
Qed.

(** ** load_game *)

(** C6, as stated, fails: a save file that is no JSON makes [load_game]
    raise, and a record with a missing field keeps its other fields. *)
Lemma load_game_not_defaults :
  load_game NotJson = Raise JSONDecodeError
  ∧ load_game NotJson ≠ Ok defaults
  ∧ load_game (Json (JDict {[ "wins" := JInt 3 ]})) ≠ Ok defaults.
Proof.
  split; [reflexivity|]. split; [discriminate|].
  intros H.
  apply (f_equal (λ r, match r with Ok (_, m) => m !! "wins" | Raise _ => None end)) in H.
  vm_compute in H. discriminate.
Qed.

(** C6, amended: without a save file [load_game] returns the defaults; from
    a file that holds a JSON object it returns each field the object has
    and the default (5000 for money, 0 for a counter) for each field it
    lacks, so the defaults for an empty object; a file that is no JSON
    makes it raise. *)
Theorem load_game_defaults :
  load_game NoFile = Ok defaults
  ∧ (∀ d : gmap string json,
       load_game (Json (JDict d)) =
         Ok (default (JInt 5000) (d !! "money"),
             {[ "wins" := default (JInt 0) (d !! "wins");
                "losses" := default (JInt 0) (d !! "losses");
                "pushes" := default (JInt 0) (d !! "pushes") ]}))
  ∧ load_game (Json (JDict ∅)) = Ok defaults
  ∧ load_game NotJson = Raise JSONDecodeError.
Proof. repeat split. Qed.

(** A record that is no JSON object has no [get]. *)
Lemma load_game_not_dict (data : json) :
  (∀ d, data ≠ JDict d) → load_game (Json data) = Raise AttributeError.
Proof. intros Hd. destruct data; try reflexivity. by destruct (Hd d). Qed.

(** What [save_game] writes, [load_game] reads back. *)
Lemma load_game_save_game (money w l p : Z) (stats : gmap string Z) :
  stats !! "wins" = Some w → stats !! "losses" = Some l → stats !! "pushes" = Some p →
  ∃ file, save_game money stats = Ok file
        ∧ load_game file =
            Ok (JInt money, {[ "wins" := JInt w; "losses" := JInt l; "pushes" := JInt p ]}).
Proof.
  intros Hw Hl Hp. unfold save_game. rewrite Hw, Hl, Hp.
  eexists. split; [reflexivity|]. reflexivity.
Qed.

(** ** The scenarios of the specification *)

Example scenario_dealer_wins :
  play_round 100 stats0 10
    [("5", SPADES); ("6", CLUBS); ("10", DIAMONDS); ("9", HEARTS); ("9", SPADES)] ["S"]
  = Ok {| money_after := 90; stats_after := <["losses" := 1]> stats0;
          player_hand := [("9", SPADES); ("9", HEARTS)];
          dealer_hand := [("10", DIAMONDS); ("6", CLUBS); ("5", SPADES)];
          deck_left := []; stdin_left := [] |}.
Proof. vm_compute. reflexivity. Qed.

Example scenario_player_wins :
  play_round 100 stats0 10
    [("9", CLUBS); ("10", DIAMONDS); ("A", HEARTS); ("10", SPADES)] ["S"]
  = Ok {| money_after := 110; stats_after := <["wins" := 1]> stats0;
          player_hand := [("10", SPADES); ("A", HEARTS)];
          dealer_hand := [("10", DIAMONDS); ("9", CLUBS)];
          deck_left := []; stdin_left := [] |}.
Proof. vm_compute. reflexivity. Qed.

(** The surrender scenario through one iteration of the loop: the bet is
    read, the round played, the record saved, a line awaited. *)
Example scenario_surrender :
  game_iteration 100 stats0
    [("7", CLUBS); ("10", DIAMONDS); ("9", HEARTS); ("10", HEARTS)]
    ["abc"; "0"; "20"; "su"; ""]
  = Ok (NextRound
          {| money_after := 90; stats_after := <["losses" := 1]> stats0;
             player_hand := [("10", HEARTS); ("9", HEARTS)];
             dealer_hand := [("10", DIAMONDS); ("7", CLUBS)];
             deck_left := []; stdin_left := [] |}
          (Json (JDict {[ "money" := JInt 90; "wins" := JInt 0;
                          "losses" := JInt 1; "pushes" := JInt 0 ]}))).
Proof. vm_compute. reflexivity. Qed.

Example scenario_quit_and_out_of_money :
  game_iteration 100 stats0 fresh_deck [" quit "] = Raise SystemExit
  ∧ game_iteration 0 stats0 fresh_deck []
    = Ok (GameOver (Json (JDict {[ "money" := JInt 0; "wins" := JInt 0;
                                   "losses" := JInt 0; "pushes" := JInt 0 ]}))).
Proof. split; vm_compute; reflexivity. Qed.

(** * Further properties of the code *)

(** ** get_deck and the deal *)

(** X1: Whatever order the shuffle leaves, the deck of [get_deck] has 52 cards,
    no card twice, and holds exactly the cards of a rank of the thirteen in
    a suit of the four. *)
Theorem get_deck_cards (deck : list card) :
  shuffled deck →
  length deck = 52%nat ∧ NoDup deck ∧ ∀ c, c ∈ deck ↔ c.1 ∈ RANKS ∧ c.2 ∈ SUITS.
Proof.
  unfold shuffled. intros Hp. split_and!.
  - by rewrite Hp.
  - rewrite Hp. apply (bool_decide_unpack _). vm_compute. exact I.
  - intros [rank suit]. rewrite Hp. simpl. split.
    + intros Hc.
      assert (Hall : Forall (λ c : card, c.1 ∈ RANKS ∧ c.2 ∈ SUITS) fresh_deck).
      { apply (bool_decide_unpack _). vm_compute. exact I. }
      rewrite Forall_forall in Hall. exact (Hall _ Hc).
    + intros [Hr Hs]. unfold RANKS, SUITS in *.
      repeat (apply elem_of_cons in Hr as [->|Hr]);
        try (by apply elem_of_nil in Hr);
        repeat (apply elem_of_cons in Hs as [->|Hs]);
        try (by apply elem_of_nil in Hs);
        apply (bool_decide_unpack _); vm_compute; exact I.
Qed.

Lemma get_deck_cards_witness :
  length (reverse fresh_deck) = 52%nat ∧ NoDup (reverse fresh_deck)
  ∧ ∀ c, c ∈ reverse fresh_deck ↔ c.1 ∈ RANKS ∧ c.2 ∈ SUITS.
Proof.
  apply (get_deck_cards (reverse fresh_deck)).
  unfold shuffled. apply reverse_Permutation.
Defined.

(** X2: [[deck.pop(), deck.pop()]] takes the last two cards of the deck, the
    last one first, and raises [IndexError] exactly on a deck of fewer than
    two cards. *)
Theorem deal_two_cases (deck : list card) :
  (∃ rest c2 c1, deck = rest ++ [c2; c1] ∧ deal_two deck = Ok ([c1; c2], rest))
  ∨ ((length deck < 2)%nat ∧ deal_two deck = Raise IndexError).
Proof.
  destruct deck as [|c1 deck] using rev_ind; [right; split; [simpl; lia|reflexivity]|].
  destruct deck as [|c2 deck] using rev_ind; [right; split; [simpl; lia|reflexivity]|].
  left. exists deck, c2, c1. split; [by rewrite <- app_assoc|].
  unfold deal_two. rewrite pop_snoc. simpl. rewrite pop_snoc. reflexivity.
Qed.

(** ** get_hand_value *)




Lemma promote_while_bounds (aces : nat) (total : Z) :
  total ≤ Spec.promote_while aces total
  ∧ (total ≤ 21 → Spec.promote_while aces total ≤ 21)
  ∧ (21 < total → Spec.promote_while aces total = total).
Proof.
  revert total. induction aces as [|k IH]; intros total; simpl; [lia|].
  case_bool_decide; [|lia].
  destruct (IH (total + 10)) as (? & ? & ?). lia.
Qed.

(** X4: Promoting aces never busts a hand: the value is at least the sum L with
    every ace as 1, and it is above 21 exactly when L is. *)
Theorem get_hand_value_bust_iff (hand : list card) (L : Z) :
  Spec.low_sum hand = Ok L →
  ∃ v, get_hand_value hand = Ok v ∧ L ≤ v ∧ (21 < v ↔ 21 < L) ∧ (21 < L → v = L).
Proof.
  rewrite get_hand_value_soft_ace. unfold Spec.low_sum, Spec.soft_ace_score.
  destruct (Spec.sum_points _) as [s|]; simpl; [|discriminate].
  intros [= <-]. eexists. split; [reflexivity|].
  pose proof (promote_while_bounds (length (filter Spec.is_ace hand))
                (s + Z.of_nat (length (filter Spec.is_ace hand)))) as (? & ? & ?).
  split_and!; [done|lia|done].
Qed.

Lemma get_hand_value_bust_iff_witness :
  ∃ v, get_hand_value [("A", HEARTS); ("K", SPADES); ("A", CLUBS); ("Q", CLUBS)] = Ok v
     ∧ 22 ≤ v ∧ (21 < v ↔ 21 < 22) ∧ (21 < 22 → v = 22).
Proof.
  apply (get_hand_value_bust_iff [("A", HEARTS); ("K", SPADES); ("A", CLUBS); ("Q", CLUBS)] 22).
  reflexivity.
Defined.

(** ** Hands of cards of the deck *)

Lemma two_cards_ok :
  forallb (λ c1, forallb (λ c2,
    match get_hand_value [c1; c2] with
    | Ok v => bool_decide (4 ≤ v ≤ 21)
    | Raise _ => false
    end) fresh_deck) fresh_deck = true.
Proof. vm_compute. reflexivity. Qed.

Lemma two_cards_ok_value (c1 c2 : card) :
  c1 ∈ fresh_deck → c2 ∈ fresh_deck →
  ∃ v, get_hand_value [c1; c2] = Ok v ∧ 4 ≤ v ≤ 21.
Proof.
  intros H1%list_elem_of_In H2%list_elem_of_In. pose proof two_cards_ok as Hok.
  rewrite forallb_forall in Hok. specialize (Hok _ H1).
  rewrite forallb_forall in Hok. specialize (Hok _ H2).
  destruct (get_hand_value [c1; c2]) as [v|]; [|discriminate].
  exists v. split; [done|]. by apply bool_decide_eq_true_1 in Hok.
Qed.

(** X5: The deal never busts: the two cards dealt from the deck of [get_deck]
    are worth between 4 and 21. *)
Theorem two_cards_value (deck hand rest : list card) :
  shuffled deck → deal_two deck = Ok (hand, rest) →
  ∃ v, get_hand_value hand = Ok v ∧ 4 ≤ v ≤ 21.
Proof.
  intros (_ & _ & Hall)%shuffled_deck Hdeal. unfold deal_two in Hdeal.
  inv_result Hdeal.
  repeat match goal with H : Py.pop _ = Ok _ |- _ => apply pop_Ok in H end.
  subst. repeat (apply Forall_app in Hall as [Hall [? _]%Forall_cons]).
  by apply two_cards_ok_value.
Qed.

Lemma two_cards_value_witness :
  ∃ v, get_hand_value [("A", CLUBS); ("K", CLUBS)] = Ok v ∧ 4 ≤ v ≤ 21.
Proof.
  apply (two_cards_value fresh_deck [("A", CLUBS); ("K", CLUBS)] (take 50 fresh_deck)).
  - unfold shuffled. reflexivity.
  - vm_compute. reflexivity.
Defined.

(** X6: A number card counts its rank: the card [get_deck] builds from the
    number [rank] with [str] is in the deck, and [get_hand_value] reads the
    number back with [int]; a J, Q or K counts 10 and a lone ace 11. *)
Theorem number_card_value (rank : Z) (suit : string) :
  2 ≤ rank ≤ 10 → suit ∈ SUITS →
  (Py.str rank, suit) ∈ fresh_deck
  ∧ get_hand_value [(Py.str rank, suit)] = Ok rank
  ∧ (∀ face, face ∈ ["J"; "Q"; "K"] →
       (face, suit) ∈ fresh_deck ∧ get_hand_value [(face, suit)] = Ok 10)
  ∧ ("A", suit) ∈ fresh_deck ∧ get_hand_value [("A", suit)] = Ok 11.
Proof.
  intros Hrank Hsuit.
  assert (Hcases : rank ∈ seqZ 2 9) by (apply elem_of_seqZ; lia).
  split_and!.
  - unfold SUITS in Hsuit. cbn in Hcases.
    repeat (apply elem_of_cons in Hcases as [->|Hcases]);
      try (by apply elem_of_nil in Hcases);
      repeat (apply elem_of_cons in Hsuit as [->|Hsuit]);
      try (by apply elem_of_nil in Hsuit);
      apply (bool_decide_unpack _); vm_compute; exact I.
  - cbn in Hcases.
    repeat (apply elem_of_cons in Hcases as [->|Hcases]);
      try (by apply elem_of_nil in Hcases); reflexivity.
  - intros face Hface. split.
    + unfold SUITS in Hsuit.
      repeat (apply elem_of_cons in Hface as [->|Hface]);
        try (by apply elem_of_nil in Hface);
        repeat (apply elem_of_cons in Hsuit as [->|Hsuit]);
        try (by apply elem_of_nil in Hsuit);
        apply (bool_decide_unpack _); vm_compute; exact I.
    + repeat (apply elem_of_cons in Hface as [->|Hface]);
        try (by apply elem_of_nil in Hface); reflexivity.
  - unfold SUITS in Hsuit.
    repeat (apply elem_of_cons in Hsuit as [->|Hsuit]);
      try (by apply elem_of_nil in Hsuit);
      apply (bool_decide_unpack _); vm_compute; exact I.
  - reflexivity.
Qed.

Lemma number_card_value_witness :
  (Py.str 7, CLUBS) ∈ fresh_deck ∧ get_hand_value [(Py.str 7, CLUBS)] = Ok 7.
Proof.
  destruct (number_card_value 7 CLUBS) as (Hin & Hv & _).
  - lia.
  - apply (bool_decide_unpack _). vm_compute. exact I.
  - by split.
Defined.

(** The low sum and the aces of a hand and of one card of the deck. *)
Lemma deck_hand_formula (hand : list card) :
  Forall (λ c, c ∈ fresh_deck) hand →
  ∃ s, Spec.sum_points (filter (λ c, ¬ Spec.is_ace c) hand) = Ok s ∧ 0 ≤ s
     ∧ get_hand_value hand =
         Ok (let aces := length (filter Spec.is_ace hand) in
             let L := s + Z.of_nat aces in
             if bool_decide ((0 < aces)%nat ∧ L + 10 ≤ 21) then L + 10 else L).
Proof.
  intros (s & Hs & Hpos)%sum_points_deck. exists s. split_and!; [done..|].
  rewrite get_hand_value_soft_ace. unfold Spec.soft_ace_score. rewrite Hs. simpl.
  by rewrite promote_while_once by lia.
Qed.

(** What one more card of the deck does to the value of a hand. *)
Lemma hit_value (hand : list card) (c : card) (v : Z) :
  Forall (λ c, c ∈ fresh_deck) hand → c ∈ fresh_deck →
  get_hand_value hand = Ok v →
  ∃ v', get_hand_value (hand ++ [c]) = Ok v'
      ∧ v - 9 ≤ v' ≤ v + 11 ∧ (21 < v → 21 < v') ∧ (v' ≤ 21 ∨ v' ≤ v + 10).
Proof.
  intros Hhand Hc Hv.
  assert (Hhand' : Forall (λ c, c ∈ fresh_deck) (hand ++ [c])).
  { apply Forall_app. split; [done|]. by constructor. }
  destruct (deck_hand_formula _ Hhand) as (s & Hs & Hpos & Hv0).
  destruct (deck_hand_formula _ Hhand') as (s' & Hs' & Hpos' & Hv').
  rewrite Hv in Hv0. injection Hv0 as ->. eexists. split; [exact Hv'|].
  rewrite !filter_app, length_app in *. rewrite sum_points_app, Hs in Hs'. simpl in Hs'.
  destruct (decide (Spec.is_ace c)) as [Hace|Hace].
  - rewrite (filter_cons_True Spec.is_ace), (filter_cons_False (λ c, ¬ Spec.is_ace c)) in *
      by auto.
    simpl in *. injection Hs' as <-. repeat case_bool_decide; lia.
  - rewrite (filter_cons_False Spec.is_ace), (filter_cons_True (λ c, ¬ Spec.is_ace c)) in *
      by auto.
    destruct (deck_card_points c Hc) as [|(p & Hp & Hrange)]; [done|].
    simpl in *. rewrite Hp in Hs'. simpl in Hs'. injection Hs' as <-.
    repeat case_bool_decide; lia.
Qed.

(** X7: A hit changes the value of a hand by -9 at least and 11 at most, and a
    hand that is bust stays bust. *)
Theorem hit_changes_value (hand : list card) (c : card) (v : Z) :
  Forall (λ c, c ∈ fresh_deck) hand → c ∈ fresh_deck →
  get_hand_value hand = Ok v →
  ∃ v', get_hand_value (hand ++ [c]) = Ok v'
      ∧ v - 9 ≤ v' ≤ v + 11 ∧ (21 < v → 21 < v').
Proof.
  intros Hhand Hc Hv.
  destruct (hit_value hand c v Hhand Hc Hv) as (v' & Hv' & Hrange & Hbust & _).
  by exists v'.
Qed.

Lemma hit_changes_value_witness :
  ∃ v', get_hand_value ([("A", HEARTS); ("10", SPADES)] ++ [("A", CLUBS)]) = Ok v'
      ∧ 21 - 9 ≤ v' ≤ 21 + 11 ∧ (21 < 21 → 21 < v').
Proof.
  apply (hit_changes_value [("A", HEARTS); ("10", SPADES)] ("A", CLUBS) 21).
  - apply (bool_decide_unpack _). vm_compute. exact I.
  - apply (bool_decide_unpack _). vm_compute. exact I.
  - reflexivity.
Defined.

(** ** player_turn *)

Lemma turn_trace_draw (can_double : bool) (player deck1 : list card) (c : card)
    (bet : Z) (line : string) (stdin : list string) (t : turn_end) (v : Z) :
  get_hand_value (player ++ [c]) = Ok v → v ≤ 21 →
  turn_trace can_double (player ++ [c]) deck1 bet stdin t →
  turn_trace can_double player (deck1 ++ [c]) bet (line :: stdin) t.
Proof.
  intros Hv Hv21 (drawn & read & Hp & Hd & Hs & Hlen & Hread & Hj & Hb & Hsu).
  exists (c :: drawn), (line :: read). split_and!.
  - by rewrite Hp, <- app_assoc.
  - by rewrite reverse_cons, app_assoc, <- Hd.
  - simpl. by rewrite <- Hs.
  - simpl. lia.
  - simpl. lia.
  - intros [|[|j]] Hjlt; simpl in *; [lia|rewrite take_0; eauto|].
    rewrite (cons_middle c), app_assoc. apply Hj. lia.
  - destruct Hb as [?|(? & ? & ? & ?)]; [by left|by right].
  - done.
Qed.

Lemma turn_trace_skip (can_double : bool) (player deck : list card)
    (bet : Z) (line : string) (stdin : list string) (t : turn_end) :
  turn_trace can_double player deck bet stdin t →
  turn_trace can_double player deck bet (line :: stdin) t.
Proof.
  intros (drawn & read & Hp & Hd & Hs & Hlen & Hread & Hj & Hb & Hsu).
  exists drawn, (line :: read). rewrite Hs. simpl. split_and!; try done; lia.
Qed.

Lemma turn_trace_last (can_double : bool) (player deck1 : list card) (c : card)
    (bet bet' : Z) (line : string) (stdin : list string) :
  bet' = bet ∨ (bet' = bet * 2 ∧ can_double = true) →
  turn_trace can_double player (deck1 ++ [c]) bet (line :: stdin)
    (TurnEnd bet' false (player ++ [c]) deck1 stdin).
Proof.
  intros Hb. exists [c], [line]. simpl. split_and!; [done..|lia|lia|idtac|idtac|done].
  - intros j Hj. lia.
  - destruct Hb as [?|[? ?]]; [by left|by right].
Qed.

Lemma turn_trace_stop (can_double : bool) (player deck : list card)
    (bet : Z) (line : string) (stdin : list string) (su : bool) :
  turn_trace can_double player deck bet (line :: stdin)
    (TurnEnd bet su player deck stdin).
Proof.
  exists [], [line]. simpl. rewrite !app_nil_r.
  split_and!; [done..|lia|lia|idtac|by left|done]. intros j Hj. lia.
Qed.

Lemma player_loop_trace (can_double : bool) (dealer : list card) (stdin : list string) :
  ∀ (player deck : list card) (bet : Z) (t : turn_end),
    player_loop can_double dealer stdin player deck bet = Ok t →
    turn_trace can_double player deck bet stdin t.
Proof.
  induction stdin as [|line stdin IH]; intros player deck bet t Ht; simpl in Ht.
  { discriminate. }
  repeat case_bool_decide; try (destruct can_double; cbn [andb] in Ht);
    inv_result Ht; repeat (case_bool_decide; inv_result Ht);
    repeat match goal with H : Py.pop _ = Ok _ |- _ => apply pop_Ok in H as -> end;
    try (subst t; first [ by apply turn_trace_stop | apply turn_trace_last; by auto ]);
    try (by apply turn_trace_skip, IH).
  all: eapply turn_trace_draw; [eassumption|lia|by apply IH].
Qed.

Lemma player_turn_trace (player dealer deck : list card) (bet money : Z)
    (stdin : list string) (t : turn_end) :
  player_turn player dealer deck bet money stdin = Ok t →
  turn_trace (bool_decide (length player = 2%nat) && bool_decide (2 * bet ≤ money))
    player deck bet stdin t.
Proof. unfold player_turn. intros Ht. inv_result Ht. by eapply player_loop_trace. Qed.

(** X8: The player phase only moves cards from the end of the deck to the end of
    the player's hand, the last card of the deck first; it reads at least
    one line, leaves the lines it has not read, and draws no more cards than
    it reads lines. *)
Theorem player_turn_draws (player dealer deck : list card) (bet money : Z)
    (stdin : list string) (t : turn_end) :
  player_turn player dealer deck bet money stdin = Ok t →
  ∃ drawn read,
    player_after t = player ++ drawn
    ∧ deck = deck_after t ++ reverse drawn
    ∧ stdin = read ++ stdin_after t
    ∧ (length drawn ≤ length read)%nat ∧ (0 < length read)%nat.
Proof.
  intros (drawn & read & Hp & Hd & Hs & Hlen & Hread & _)%player_turn_trace.
  by exists drawn, read.
Qed.

Lemma player_turn_draws_witness :
  ∃ drawn read,
    [("10", HEARTS); ("2", SPADES); ("4", DIAMONDS)] = [("10", HEARTS); ("2", SPADES)] ++ drawn
    ∧ [("5", DIAMONDS); ("3", CLUBS); ("4", DIAMONDS)]
      = [("5", DIAMONDS); ("3", CLUBS)] ++ reverse drawn
    ∧ ["?"; "h"; "s"; "h"] = read ++ ["h"]
    ∧ (length drawn ≤ length read)%nat ∧ (0 < length read)%nat.
Proof.
  exact (player_turn_draws [("10", HEARTS); ("2", SPADES)] [("9", HEARTS); ("7", CLUBS)]
           [("5", DIAMONDS); ("3", CLUBS); ("4", DIAMONDS)] 10 100 ["?"; "h"; "s"; "h"]
           (TurnEnd 10 false [("10", HEARTS); ("2", SPADES); ("4", DIAMONDS)]
              [("5", DIAMONDS); ("3", CLUBS)] ["h"]) eq_refl).
Defined.

(** X9: The player never draws on a bust hand: every hand the player held
    between the deal and the last draw was worth 21 or less. *)
Theorem player_turn_no_hit_on_bust (player dealer deck : list card) (bet money : Z)
    (stdin : list string) (t : turn_end) (hand : list card) :
  player_turn player dealer deck bet money stdin = Ok t →
  hand `prefix_of` player_after t →
  (length player < length hand < length (player_after t))%nat →
  ∃ v, get_hand_value hand = Ok v ∧ v ≤ 21.
Proof.
  intros (drawn & read & Hp & _ & _ & _ & _ & Hj & _)%player_turn_trace [k Hk] Hlen.
  rewrite Hp, length_app in Hlen.
  assert (Hhand : hand = player ++ take (length hand - length player) drawn).
  { apply (f_equal (take (length hand))) in Hk.
    rewrite take_app_length, Hp, take_app_ge in Hk by lia.
    done. }
  rewrite Hhand. apply Hj. lia.
Qed.

Lemma player_turn_no_hit_on_bust_witness :
  ∃ v, get_hand_value [("10", HEARTS); ("2", SPADES); ("4", DIAMONDS)] = Ok v ∧ v ≤ 21.
Proof.
  apply (player_turn_no_hit_on_bust [("10", HEARTS); ("2", SPADES)]
           [("9", HEARTS); ("7", CLUBS)] [("K", DIAMONDS); ("3", CLUBS); ("4", DIAMONDS)]
           10 100 ["h"; "h"; "h"]
           (TurnEnd 10 false
              [("10", HEARTS); ("2", SPADES); ("4", DIAMONDS); ("3", CLUBS); ("K", DIAMONDS)]
              [] [])).
  - reflexivity.
  - by exists [("3", CLUBS); ("K", DIAMONDS)].
  - simpl. lia.
Defined.

(** X10: The bet [player_turn] returns is the bet it got or twice that bet; it
    is twice the bet only when the hand had two cards and the bankroll twice
    the bet at entry, the player has drawn, and has not surrendered: the
    bet is doubled once at most. *)
Theorem player_turn_doubles_once (player dealer deck : list card) (bet money : Z)
    (stdin : list string) (t : turn_end) :
  player_turn player dealer deck bet money stdin = Ok t →
  final_bet t = bet
  ∨ (final_bet t = 2 * bet ∧ length player = 2%nat ∧ 2 * bet ≤ money
     ∧ surrendered t = false ∧ (length player < length (player_after t))%nat).
Proof.
  intros (drawn & read & Hp & _ & _ & _ & _ & _ & Hb & _)%player_turn_trace.
  destruct Hb as [Hb|(Hb & Hcd & Hs & Hd)]; [by left|right].
  apply andb_prop in Hcd as [Hlen Hmoney].
  apply bool_decide_eq_true_1 in Hlen. apply bool_decide_eq_true_1 in Hmoney.
  split_and!; [lia|done..|].
  rewrite Hp, length_app. destruct drawn; [done|simpl; lia].
Qed.

Lemma player_turn_doubles_once_witness :
  20 = 10
  ∨ (20 = 2 * 10 ∧ length [("10", HEARTS); ("2", SPADES)] = 2%nat ∧ 2 * 10 ≤ 100
     ∧ false = false
     ∧ (length [("10", HEARTS); ("2", SPADES)]
        < length [("10", HEARTS); ("2", SPADES); ("4", DIAMONDS)])%nat).
Proof.
  exact (player_turn_doubles_once [("10", HEARTS); ("2", SPADES)]
           [("9", HEARTS); ("7", CLUBS)] [("5", DIAMONDS); ("3", CLUBS); ("4", DIAMONDS)]
           10 100 [" d"]
           (TurnEnd 20 false [("10", HEARTS); ("2", SPADES); ("4", DIAMONDS)]
              [("5", DIAMONDS); ("3", CLUBS)] []) eq_refl).
Defined.




(** X12: The player phase does not look at the dealer's hand: with another
    dealer hand it returns the same bet, hand, deck and lines, or raises the
    same exception. *)
Theorem player_turn_ignores_dealer (player dealer dealer' deck : list card)
    (bet money : Z) (stdin : list string) :
  player_turn player dealer deck bet money stdin
  = player_turn player dealer' deck bet money stdin.
Proof.
  unfold player_turn. f_equal.
  generalize (bool_decide (length player = 2%nat) && bool_decide (2 * bet ≤ money)).
  intros can_double. apply functional_extensionality. intros _.
  revert player deck bet. induction stdin as [|line stdin IH]; intros; simpl; [done|].
  repeat case_bool_decide; try destruct can_double; cbn [andb];
    try reflexivity; try apply IH.
  all: destruct (Py.pop deck) as [[c deck1]|]; simpl; [|done].
  all: unfold display_hands; simpl.
  all: destruct (get_hand_value (player ++ [c])); simpl; [|done].
  all: try case_bool_decide; try done; apply IH.
Qed.

(** ** dealer_turn *)

Lemma sum_points_deck_length (hand : list card) :
  Forall (λ c, c ∈ fresh_deck) hand →
  ∃ s, Spec.sum_points (filter (λ c, ¬ Spec.is_ace c) hand) = Ok s
     ∧ Z.of_nat (length (filter (λ c, ¬ Spec.is_ace c) hand)) ≤ s.
Proof.
  induction 1 as [|c hand Hc _ (s & Hs & Hlen)]; [by exists 0|].
  destruct (decide (Spec.is_ace c)) as [Hace|Hace].
  - rewrite filter_cons_False by auto. eauto.
  - rewrite filter_cons_True by auto.
    destruct (deck_card_points c Hc) as [|(p & Hp & Hrange)]; [done|].
    exists (p + s). simpl. rewrite Hp, Hs. simpl. split; [done|lia].
Qed.

(** Every card of the deck counts for one point at least. *)
Lemma get_hand_value_length (hand : list card) :
  Forall (λ c, c ∈ fresh_deck) hand →
  ∃ v, get_hand_value hand = Ok v ∧ Z.of_nat (length hand) ≤ v.
Proof.
  intros (s & Hs & Hlen)%sum_points_deck_length.
  rewrite get_hand_value_soft_ace. unfold Spec.soft_ace_score. rewrite Hs. simpl.
  eexists. split; [reflexivity|].
  pose proof (promote_while_bounds (length (filter Spec.is_ace hand))
                (s + Z.of_nat (length (filter Spec.is_ace hand)))) as (Hle & _).
  pose proof (filter_app_complement Spec.is_ace hand) as Hperm.
  apply Permutation_length in Hperm. rewrite length_app in Hperm. lia.
Qed.

(** What the loop of [dealer_turn] has done when it returns. *)
Lemma dealer_loop_trace (deck : list card) : ∀ (dealer dealer' deck' : list card),
  dealer_loop dealer deck = Ok (dealer', deck') →
  ∃ drawn,
    dealer' = dealer ++ drawn ∧ deck = deck' ++ reverse drawn
    ∧ (∃ v, get_hand_value dealer' = Ok v ∧ 17 ≤ v)
    ∧ (∀ j, (j < length drawn)%nat →
         ∃ v, get_hand_value (dealer ++ take j drawn) = Ok v ∧ v < 17).
Proof.
  induction deck as [|c deck IH] using rev_ind; intros dealer dealer' deck' Hloop;
    rewrite dealer_loop_once in Hloop;
    destruct (get_hand_value dealer) as [v|] eqn:Hv; simpl in Hloop; try discriminate;
    case_bool_decide.
  - discriminate.
  - injection Hloop as <- <-. exists []. rewrite app_nil_r. simpl.
    split_and!; [done|done|exists v; split; [done|lia]|intros j Hj; lia].
  - rewrite pop_snoc in Hloop. simpl in Hloop.
    apply IH in Hloop as (drawn & Hd & Hdeck & Hstop & Hbefore).
    exists (c :: drawn). split_and!.
    + by rewrite Hd, <- app_assoc.
    + by rewrite Hdeck, reverse_cons, app_assoc.
    + exact Hstop.
    + intros [|j] Hj; simpl.
      * rewrite app_nil_r. eauto.
      * destruct (Hbefore j) as (w & Hw & Hw17); [simpl in Hj; lia|].
        rewrite <- app_assoc in Hw. eauto.
  - injection Hloop as <- <-. exists []. rewrite app_nil_r. simpl.
    split_and!; [done|by rewrite app_nil_r|exists v; split; [done|lia]|intros j Hj; lia].
Qed.

(** X13: Whenever [dealer_turn] returns, the dealer's hand has grown by the cards
    that have left the end of the deck, the last card first, and no other
    card has moved; each card was drawn on a value below 17; and if a card
    was drawn, the player had 21 or less and the dealer ends on 17 or more. *)
Theorem dealer_turn_moves_cards (player dealer deck dealer' deck' : list card) :
  dealer_turn player dealer deck = Ok (dealer', deck') →
  ∃ drawn,
    dealer' = dealer ++ drawn ∧ deck = deck' ++ reverse drawn
    ∧ (∀ j, (j < length drawn)%nat →
         ∃ v, get_hand_value (dealer ++ take j drawn) = Ok v ∧ v < 17)
    ∧ (drawn ≠ [] →
         (∃ pv, get_hand_value player = Ok pv ∧ pv ≤ 21)
         ∧ ∃ v, get_hand_value dealer' = Ok v ∧ 17 ≤ v).
Proof.
  unfold dealer_turn. intros Hturn.
  destruct (get_hand_value player) as [pv|] eqn:Hpv; simpl in Hturn; [|discriminate].
  case_bool_decide.
  - injection Hturn as <- <-. exists []. simpl. rewrite !app_nil_r.
    split_and!; [done|done|intros j Hj; lia|done].
  - apply dealer_loop_trace in Hturn as (drawn & Hd & Hdeck & Hstop & Hbefore).
    exists drawn. split_and!; [done..|]. intros _. split; [|done].
    exists pv. split; [done|lia].
Qed.

Lemma dealer_turn_moves_cards_witness :
  ∃ drawn,
    [("2", HEARTS); ("3", SPADES); ("6", CLUBS); ("K", CLUBS)]
      = [("2", HEARTS); ("3", SPADES)] ++ drawn
    ∧ [("9", DIAMONDS); ("K", CLUBS); ("6", CLUBS)] = [("9", DIAMONDS)] ++ reverse drawn
    ∧ (∀ j, (j < length drawn)%nat →
         ∃ v, get_hand_value ([("2", HEARTS); ("3", SPADES)] ++ take j drawn) = Ok v ∧ v < 17)
    ∧ (drawn ≠ [] →
         (∃ pv, get_hand_value [("10", HEARTS); ("9", HEARTS)] = Ok pv ∧ pv ≤ 21)
         ∧ ∃ v, get_hand_value [("2", HEARTS); ("3", SPADES); ("6", CLUBS); ("K", CLUBS)]
                = Ok v ∧ 17 ≤ v).
Proof.
  apply (dealer_turn_moves_cards [("10", HEARTS); ("9", HEARTS)]
           [("2", HEARTS); ("3", SPADES)] [("9", DIAMONDS); ("K", CLUBS); ("6", CLUBS)]).
  vm_compute. reflexivity.
Defined.

(** With cards of the deck, the loop of [dealer_turn] ends on 17 or more,
    and on 26 or less if it has drawn: the last card came on 16 or less and
    adds 10 at most, an ace counting 11 only up to 21. *)
Lemma dealer_loop_value (dealer deck dealer' deck' : list card) :
  Forall (λ c, c ∈ fresh_deck) dealer → Forall (λ c, c ∈ fresh_deck) deck →
  dealer_loop dealer deck = Ok (dealer', deck') →
  ∃ v, get_hand_value dealer' = Ok v ∧ 17 ≤ v ∧ (dealer' ≠ dealer → v ≤ 26).
Proof.
  intros Hdealer Hdeck.
  intros (drawn & Hd & Hdk & (v & Hv & Hv17) & Hbefore)%dealer_loop_trace.
  exists v. split_and!; [done..|]. intros Hne.
  destruct drawn as [|c drawn _] using rev_ind; [by rewrite app_nil_r in Hd|].
  destruct (Hbefore (length drawn)) as (v0 & Hv0 & Hv016).
  { rewrite length_app. simpl. lia. }
  rewrite take_app_length in Hv0.
  rewrite Hdk in Hdeck. apply Forall_app in Hdeck as [_ Hdrawn].
  apply Forall_reverse, Forall_app in Hdrawn as [Hdrawn Hc].
  apply Forall_cons in Hc as [Hc _].
  destruct (hit_value (dealer ++ drawn) c v0) as (v' & Hv' & _ & _ & Hup);
    [by apply Forall_app|done..|].
  rewrite <- app_assoc, <- Hd in Hv'. assert (v = v') by congruence. lia.
Qed.

(** X14: With cards of the deck and a player at 21 or less, whenever
    [dealer_turn] returns the dealer has 17 or more, and 26 or less if the
    dealer's hand has changed. *)
Theorem dealer_turn_final_value (player dealer deck dealer' deck' : list card) (pv : Z) :
  Forall (λ c, c ∈ fresh_deck) dealer → Forall (λ c, c ∈ fresh_deck) deck →
  get_hand_value player = Ok pv → pv ≤ 21 →
  dealer_turn player dealer deck = Ok (dealer', deck') →
  ∃ v, get_hand_value dealer' = Ok v ∧ 17 ≤ v ∧ (dealer' ≠ dealer → v ≤ 26).
Proof.
  intros Hdealer Hdeck Hpv Hpv21. unfold dealer_turn. rewrite Hpv. simpl.
  rewrite bool_decide_eq_false_2 by lia.
  by apply dealer_loop_value.
Qed.

Lemma dealer_turn_final_value_witness :
  ∃ v, get_hand_value [("2", HEARTS); ("3", SPADES); ("6", CLUBS); ("K", CLUBS)] = Ok v
     ∧ 17 ≤ v
     ∧ ([("2", HEARTS); ("3", SPADES); ("6", CLUBS); ("K", CLUBS)]
        ≠ [("2", HEARTS); ("3", SPADES)] → v ≤ 26).
Proof.
  apply (dealer_turn_final_value [("10", HEARTS); ("9", HEARTS)]
           [("2", HEARTS); ("3", SPADES)] [("9", DIAMONDS); ("K", CLUBS); ("6", CLUBS)]
           [("2", HEARTS); ("3", SPADES); ("6", CLUBS); ("K", CLUBS)] [("9", DIAMONDS)] 19).
  - apply (bool_decide_unpack _). vm_compute. exact I.
  - apply (bool_decide_unpack _). vm_compute. exact I.
  - reflexivity.
  - lia.
  - vm_compute. reflexivity.
Defined.

(** Seventeen cards of the deck are worth 17 at least: the loop of
    [dealer_turn] returns before a deck of 17 cards or more is empty. *)
Lemma dealer_loop_returns (dealer deck : list card) :
  Forall (λ c, c ∈ fresh_deck) dealer → Forall (λ c, c ∈ fresh_deck) deck →
  (17 ≤ length deck)%nat →
  ∃ dealer' deck', dealer_loop dealer deck = Ok (dealer', deck').
Proof.
  intros Hd Hdeck Hlen.
  destruct (dealer_loop_stack 17 (reverse deck) dealer) as (n & _ & Hloop & _).
  - by rewrite length_reverse.
  - destruct (get_hand_value_length (dealer ++ take 17 (reverse deck))) as (v & Hv & Hlenv).
    + apply Forall_app. split; [done|]. apply Forall_take. by apply Forall_reverse.
    + exists v. split; [done|].
      rewrite length_app, length_take, length_reverse in Hlenv. lia.
  - rewrite reverse_involutive in Hloop. eauto.
Qed.

(** ** A round: where the cards go *)

Lemma deal_two_Ok (deck hand rest : list card) :
  deal_two deck = Ok (hand, rest) →
  ∃ c1 c2, hand = [c1; c2] ∧ deck = rest ++ [c2; c1].
Proof.
  unfold deal_two. intros Hdeal. inv_result Hdeal.
  repeat match goal with H : Py.pop _ = Ok _ |- _ => apply pop_Ok in H end.
  subst.
  do 2 eexists. split; [reflexivity|]. by rewrite <- app_assoc.
Qed.

Lemma deal_two_snoc (rest : list card) (c2 c1 : card) :
  deal_two ((rest ++ [c2]) ++ [c1]) = Ok ([c1; c2], rest).
Proof. unfold deal_two. rewrite pop_snoc. simpl. by rewrite pop_snoc. Qed.

(** The cards of a round that has ended: the two hands as dealt, what the
    player and the dealer have drawn, and the deck, piece by piece. *)
Lemma play_round_cards (money : Z) (stats : gmap string Z) (bet : Z)
    (deck : list card) (stdin : list string) (r : round_end) :
  play_round money stats bet deck stdin = Ok r →
  ∃ c1 c2 c3 c4 pd dd read,
    player_hand r = [c1; c2] ++ pd ∧ dealer_hand r = [c3; c4] ++ dd
    ∧ deck = deck_left r ++ reverse dd ++ reverse pd ++ [c4; c3; c2; c1]
    ∧ stdin = read ++ stdin_left r ∧ (0 < length read)%nat.
Proof.
  unfold play_round. intros Hr. inv_result Hr.
  repeat match goal with H : deal_two _ = Ok _ |- _ =>
    apply deal_two_Ok in H as (? & ? & -> & ->) end.
  match goal with H : player_turn _ _ _ _ _ _ = Ok ?t |- _ =>
    apply player_turn_trace in H as (pd & read & Hp & Hd & Hs & _ & Hread & _);
    destruct (surrendered t) end.
  - inv_result Hr. subst r. simpl. do 4 eexists. exists pd, [], read.
    split_and!; [exact Hp|reflexivity| |exact Hs|exact Hread].
    rewrite Hd. simpl. rewrite <- !app_assoc. reflexivity.
  - inv_result Hr. subst r. simpl.
    match goal with H : dealer_turn _ _ _ = Ok _ |- _ =>
      unfold dealer_turn in H; inv_result H; case_bool_decide end.
    + match goal with H : Ok _ = Ok _ |- _ => injection H; intros <- <-; clear H end.
      do 4 eexists. exists pd, [], read.
      split_and!; [exact Hp|reflexivity| |exact Hs|exact Hread].
      rewrite Hd. simpl. rewrite <- !app_assoc. reflexivity.
    + match goal with H : dealer_loop _ _ = Ok _ |- _ =>
        apply dealer_loop_trace in H as (dd & -> & Hdeck & _) end.
      do 4 eexists. exists pd, dd, read.
      split_and!; [exact Hp|reflexivity| |exact Hs|exact Hread].
      rewrite Hd, Hdeck. rewrite <- !app_assoc. reflexivity.
Qed.

(** X15: A round moves cards and makes none: the two hands and the deck it ends
    with hold the cards of the deck it began with, each as often; both
    hands begin with the two cards dealt, the player's with the last two of
    the deck and the dealer's with the two before; and the lines left are
    the lines given less the first ones, one at least. *)
Theorem play_round_conserves_cards (money : Z) (stats : gmap string Z) (bet : Z)
    (deck : list card) (stdin : list string) (r : round_end) :
  play_round money stats bet deck stdin = Ok r →
  player_hand r ++ dealer_hand r ++ deck_left r ≡ₚ deck
  ∧ take 2 (player_hand r) = popped 2 deck
  ∧ take 2 (dealer_hand r) = drop 2 (popped 4 deck)
  ∧ stdin_left r `suffix_of` stdin ∧ (length (stdin_left r) < length stdin)%nat.
Proof.
  intros (c1 & c2 & c3 & c4 & pd & dd & read & Hp & Hd & Hdeck & Hs & Hread)%play_round_cards.
  rewrite Hp, Hd, Hdeck, Hs. unfold popped. split_and!.
  - rewrite <- (reverse_Permutation dd), <- (reverse_Permutation pd) at 1.
    solve_Permutation.
  - by rewrite !app_assoc, reverse_app.
  - by rewrite !app_assoc, reverse_app.
  - by exists read.
  - rewrite length_app. lia.
Qed.

Lemma play_round_conserves_cards_witness :
  [("9", SPADES); ("9", HEARTS)] ++ [("10", DIAMONDS); ("6", CLUBS); ("5", SPADES)] ++ []
  ≡ₚ [("5", SPADES); ("6", CLUBS); ("10", DIAMONDS); ("9", HEARTS); ("9", SPADES)].
Proof.
  exact (proj1 (play_round_conserves_cards 100 stats0 10
    [("5", SPADES); ("6", CLUBS); ("10", DIAMONDS); ("9", HEARTS); ("9", SPADES)] ["S"]
    (RoundEnd 90 (<["losses" := 1]> stats0) [("9", SPADES); ("9", HEARTS)]
       [("10", DIAMONDS); ("6", CLUBS); ("5", SPADES)] [] []) eq_refl)).
Defined.

(** X16: With the deck of [get_deck], no card is in two places when the round
    ends, and the fifty-two are all there. *)
Theorem play_round_no_card_twice (money : Z) (stats : gmap string Z) (bet : Z)
    (deck : list card) (stdin : list string) (r : round_end) :
  shuffled deck →
  play_round money stats bet deck stdin = Ok r →
  NoDup (player_hand r ++ dealer_hand r ++ deck_left r)
  ∧ (length (player_hand r) + length (dealer_hand r) + length (deck_left r) = 52)%nat
  ∧ ∀ c, c ∈ fresh_deck → c ∈ player_hand r ∨ c ∈ dealer_hand r ∨ c ∈ deck_left r.
Proof.
  intros Hsh (c1 & c2 & c3 & c4 & pd & dd & read & Hp & Hd & Hdeck & _)%play_round_cards.
  assert (Hperm : player_hand r ++ dealer_hand r ++ deck_left r ≡ₚ fresh_deck).
  { unfold shuffled in Hsh. rewrite <- Hsh, Hp, Hd, Hdeck.
    rewrite <- (reverse_Permutation dd), <- (reverse_Permutation pd) at 1.
    solve_Permutation. }
  split_and!.
  - rewrite Hperm. apply (bool_decide_unpack _). vm_compute. exact I.
  - apply Permutation_length in Hperm. rewrite !length_app in Hperm.
    change (length fresh_deck) with 52%nat in Hperm. lia.
  - intros c Hc. rewrite <- Hperm, !elem_of_app in Hc. exact Hc.
Qed.

Lemma play_round_no_card_twice_witness :
  ∃ r, play_round 100 stats0 10 fresh_deck ["h"; "s"] = Ok r
     ∧ NoDup (player_hand r ++ dealer_hand r ++ deck_left r)
     ∧ (length (player_hand r) + length (dealer_hand r) + length (deck_left r) = 52)%nat.
Proof.
  destruct (play_round 100 stats0 10 fresh_deck ["h"; "s"]) as [r|] eqn:Hr;
    [|vm_compute in Hr; discriminate].
  exists r. split; [reflexivity|].
  destruct (play_round_no_card_twice 100 stats0 10 fresh_deck ["h"; "s"] r) as (Hn & Hl & _).
  - unfold shuffled. reflexivity.
  - exact Hr.
  - by split.
Defined.

(** ** A round: what can go wrong *)

(** With hands of 21 or less made of cards of the deck, and 22 cards or more
    between the hand and the deck, the loop of [player_turn] never finds the
    deck empty: the only exception is the end of the input. *)
Lemma player_loop_raises (can_double : bool) (dealer : list card) (stdin : list string) :
  ∀ (player deck : list card) (bet : Z) (e : exn),
    Forall (λ c, c ∈ fresh_deck) player → Forall (λ c, c ∈ fresh_deck) deck →
    (22 ≤ length player + length deck)%nat →
    (∃ v, get_hand_value player = Ok v ∧ v ≤ 21) →
    player_loop can_double dealer stdin player deck bet = Raise e → e = EOFError.
Proof.
  induction stdin as [|line stdin IH]; intros player deck bet e Hp Hd Hlen (v & Hv & Hv21) Hr;
    simpl in Hr.
  { by injection Hr as <-. }
  destruct (get_hand_value_length player Hp) as (v' & Hv' & Hl).
  assert (v' = v) as -> by congruence.
  destruct deck as [|c deck _] using rev_ind; [simpl in Hlen; lia|].
  pose proof Hd as Hd'. apply Forall_app in Hd' as [Hdeck Hc].
  apply Forall_cons in Hc as [Hc _].
  assert (Hp' : Forall (λ c, c ∈ fresh_deck) (player ++ [c])).
  { apply Forall_app. split; [done|]. by constructor. }
  destruct (get_hand_value_deck _ Hp') as [w Hw].
  rewrite pop_snoc in Hr. simpl in Hr. unfold display_hands in Hr. rewrite Hw in Hr.
  simpl in Hr.
  rewrite length_app in Hlen. simpl in Hlen.
  repeat case_bool_decide; try destruct can_double; cbn [andb] in Hr; try discriminate.
  all: try (eapply (IH player (deck ++ [c])); [done|done|rewrite length_app; simpl; lia|eauto|exact Hr]).
  all: eapply (IH (player ++ [c]) deck);
    [done|done|rewrite length_app; simpl; lia|exists w; split; [done|lia]|exact Hr].
Qed.

Lemma resolve_game_returns (player dealer : list card) (bet money : Z)
    (stats : gmap string Z) (pv dv : Z) :
  get_hand_value player = Ok pv → get_hand_value dealer = Ok dv →
  is_Some (stats !! "wins") → is_Some (stats !! "losses") → is_Some (stats !! "pushes") →
  ∃ money' stats', resolve_game player dealer bet money stats = Ok (money', stats').
Proof.
  intros Hp Hd [w Hw] [l Hl] [p Hpu]. rewrite (resolve_game_cases _ _ _ _ _ _ _ Hp Hd).
  repeat case_bool_decide;
    try rewrite (incr_Some _ _ _ Hw); try rewrite (incr_Some _ _ _ Hl);
    try rewrite (incr_Some _ _ _ Hpu); simpl; eauto.
Qed.

(** X17: With the deck of [get_deck] and the three counters in place, a round
    never runs out of cards and never meets a card it cannot read: it
    returns, or the input ends first and it raises [EOFError]. *)
Theorem play_round_raises_EOFError (money : Z) (stats : gmap string Z) (bet : Z)
    (deck : list card) (stdin : list string) :
  shuffled deck →
  is_Some (stats !! "wins") → is_Some (stats !! "losses") → is_Some (stats !! "pushes") →
  (∃ r, play_round money stats bet deck stdin = Ok r)
  ∨ play_round money stats bet deck stdin = Raise EOFError.
Proof.
  intros (Hlen & _ & Hall)%shuffled_deck Hw Hl Hpu.
  destruct deck as [|c1 deck _] using rev_ind; [simpl in Hlen; lia|].
  destruct deck as [|c2 deck _] using rev_ind; [simpl in Hlen; lia|].
  destruct deck as [|c3 deck _] using rev_ind; [simpl in Hlen; lia|].
  destruct deck as [|c4 deck _] using rev_ind; [simpl in Hlen; lia|].
  rewrite !length_app in Hlen. simpl in Hlen.
  repeat (apply Forall_app in Hall as [Hall [? _]%Forall_cons]).
  assert (Hph : Forall (λ c, c ∈ fresh_deck) [c1; c2])
    by (repeat (apply Forall_cons_2; [assumption|]); constructor).
  assert (Hdh : Forall (λ c, c ∈ fresh_deck) [c3; c4])
    by (repeat (apply Forall_cons_2; [assumption|]); constructor).
  destruct (two_cards_ok_value c1 c2) as (pv0 & Hpv0 & Hpv021); [done..|].
  destruct (get_hand_value_deck _ Hdh) as [dv0 Hdv0].
  unfold play_round. rewrite deal_two_snoc. simpl. rewrite deal_two_snoc. simpl.
  destruct (player_turn [c1; c2] [c3; c4] deck bet money stdin) as [t|e] eqn:Ht; simpl.
  - pose proof Ht as (pd & read & Hp & Hd & _ & _ & _ & Hj & _)%player_turn_trace.
    rewrite Hd in Hall. apply Forall_app in Hall as [Hleft Hpd].
    apply (proj1 (Forall_reverse _ _)) in Hpd.
    assert (Hpa : Forall (λ c, c ∈ fresh_deck) (player_after t)).
    { rewrite Hp. apply Forall_app. by split. }
    assert (Hpdlen : (length pd ≤ 20)%nat).
    { destruct (decide (length pd ≤ 1)%nat) as [|Hbig]; [lia|].
      destruct (Hj (length pd - 1)%nat) as (v & Hv & Hv21); [lia|].
      destruct (get_hand_value_length ([c1; c2] ++ take (length pd - 1) pd))
        as (v' & Hv' & Hl').
      { apply Forall_app. split; [done|]. by apply Forall_take. }
      assert (v' = v) as -> by congruence.
      rewrite length_app, length_take in Hl'. simpl in Hl'. lia. }
    apply (f_equal length) in Hd. rewrite length_app, length_reverse in Hd.
    destruct (surrendered t).
    + destruct Hl as [l Hl]. rewrite (incr_Some _ _ _ Hl). simpl. left. eexists. reflexivity.
    + destruct (get_hand_value_deck _ Hpa) as [pv Hpv].
      unfold dealer_turn. rewrite Hpv. simpl. case_bool_decide; simpl.
      * destruct (resolve_game_returns (player_after t) [c3; c4] (final_bet t) money
                    stats pv dv0) as (m' & s' & ->); [done..|]. simpl. left. eexists. reflexivity.
      * destruct (dealer_loop_returns [c3; c4] (deck_after t)) as (dh & dk & Hloop);
          [done|done|lia|].
        rewrite Hloop. simpl.
        apply dealer_loop_trace in Hloop as (_ & _ & _ & (dv & Hdv & _) & _).
        destruct (resolve_game_returns (player_after t) dh (final_bet t) money
                    stats pv dv) as (m' & s' & ->); [done..|]. simpl. left. eexists. reflexivity.
  - right. f_equal. unfold player_turn in Ht.
    rewrite (display_hands_Ok _ _ _ _ _ Hpv0 Hdv0) in Ht. simpl in Ht.
    eapply player_loop_raises; [exact Hph|exact Hall|simpl; lia|exists pv0; split; [done|lia]|exact Ht].
Qed.

Lemma play_round_raises_EOFError_witness :
  (∃ r, play_round 100 stats0 10 fresh_deck ["h"; "h"] = Ok r)
  ∨ play_round 100 stats0 10 fresh_deck ["h"; "h"] = Raise EOFError.
Proof.
  apply (play_round_raises_EOFError 100 stats0 10 fresh_deck ["h"; "h"]).
  - unfold shuffled. reflexivity.
  - by exists 0.
  - by exists 0.
  - by exists 0.
Defined.

(** ** A round: the account *)

Lemma resolve_game_outcome (player dealer : list card) (bet money : Z)
    (stats stats' : gmap string Z) (money' w l p : Z) :
  stats !! "wins" = Some w → stats !! "losses" = Some l → stats !! "pushes" = Some p →
  resolve_game player dealer bet money stats = Ok (money', stats') →
  (money' = money + bet ∧ stats' = <["wins" := w + 1]> stats)
  ∨ (money' = money - bet ∧ stats' = <["losses" := l + 1]> stats)
  ∨ (money' = money ∧ stats' = <["pushes" := p + 1]> stats).
Proof.
  intros Hw Hl Hp. unfold resolve_game. intros H. inv_result H.
  repeat case_bool_decide;
    try rewrite (incr_Some _ _ _ Hw) in H; try rewrite (incr_Some _ _ _ Hl) in H;
    try rewrite (incr_Some _ _ _ Hp) in H; simpl in H; injection H as <- <-; auto.
Qed.

(** The account of a round: with b the bet as placed, or twice that when
    the bankroll holds it, the round is a win of b, a loss of b, a push, or
    a surrender at the floor of half the bet as placed; one counter gains 1
    and no other entry of the counters changes. *)
Lemma play_round_outcome (money : Z) (stats : gmap string Z) (bet : Z)
    (deck : list card) (stdin : list string) (r : round_end) (w l p : Z) :
  stats !! "wins" = Some w → stats !! "losses" = Some l → stats !! "pushes" = Some p →
  play_round money stats bet deck stdin = Ok r →
  ∃ b, (b = bet ∨ (b = 2 * bet ∧ 2 * bet ≤ money))
    ∧ ((money_after r = money + b ∧ stats_after r = <["wins" := w + 1]> stats)
       ∨ (money_after r = money - b ∧ stats_after r = <["losses" := l + 1]> stats)
       ∨ (money_after r = money ∧ stats_after r = <["pushes" := p + 1]> stats)
       ∨ (money_after r = money - bet `div` 2
          ∧ stats_after r = <["losses" := l + 1]> stats)).
Proof.
  intros Hw Hl Hp. unfold play_round. intros Hr. inv_result Hr.
  match goal with H : player_turn _ _ _ _ _ _ = Ok ?t |- _ =>
    apply player_turn_bet in H as Hbet; destruct (surrendered t) eqn:Hs end.
  - rewrite (incr_Some _ _ _ Hl) in Hr. simpl in Hr. injection Hr as <-. simpl.
    exists bet. split; [by left|]. do 3 right.
    destruct Hbet as [->|(_ & _ & [=] & _)]. done.
  - inv_result Hr. subst r. simpl.
    match goal with H : resolve_game _ _ ?b _ _ = _ |- _ =>
      apply (resolve_game_outcome _ _ _ _ _ _ _ w l p Hw Hl Hp) in H; exists b end.
    split; [|tauto].
    destruct Hbet as [->|(_ & ? & _ & ->)]; [by left|right; split; lia].
Qed.

(** X18: In a round the three counters together gain exactly 1, and the
    bankroll moves by the bet as placed at most, or by twice that when it
    held twice the bet; it never moves by more than it held. *)
Theorem play_round_account (money : Z) (stats : gmap string Z) (bet : Z)
    (deck : list card) (stdin : list string) (r : round_end) (w l p : Z) :
  stats !! "wins" = Some w → stats !! "losses" = Some l → stats !! "pushes" = Some p →
  0 ≤ bet ≤ money →
  play_round money stats bet deck stdin = Ok r →
  ∃ w' l' p',
    stats_after r !! "wins" = Some w' ∧ stats_after r !! "losses" = Some l'
    ∧ stats_after r !! "pushes" = Some p'
    ∧ w' + l' + p' = w + l + p + 1 ∧ w ≤ w' ∧ l ≤ l' ∧ p ≤ p'
    ∧ Z.abs (money_after r - money) ≤ Z.max bet (if bool_decide (2 * bet ≤ money)
                                                   then 2 * bet else bet)
    ∧ Z.abs (money_after r - money) ≤ money
    ∧ (money < money_after r → w' = w + 1)
    ∧ (money_after r < money → l' = l + 1).
Proof.
  intros Hw Hl Hp Hbet (b & Hb & Hcases)%(play_round_outcome _ _ _ _ _ _ w l p);
    [|done..].
  assert (0 ≤ bet `div` 2 ≤ bet).
  { split; [apply Z.div_pos; lia|apply Z.div_le_upper_bound; lia]. }
  destruct Hcases as [[Hm ->]|[[Hm ->]|[[Hm ->]|[Hm ->]]]].
  - exists (w + 1), l, p. rewrite lookup_insert_eq, !lookup_insert_ne by done.
    split_and!; try done; try case_bool_decide; lia.
  - exists w, (l + 1), p. rewrite lookup_insert_eq, !lookup_insert_ne by done.
    split_and!; try done; try case_bool_decide; lia.
  - exists w, l, (p + 1). rewrite lookup_insert_eq, !lookup_insert_ne by done.
    split_and!; try done; try case_bool_decide; lia.
  - exists w, (l + 1), p. rewrite lookup_insert_eq, !lookup_insert_ne by done.
    split_and!; try done; try case_bool_decide; lia.
Qed.

Lemma play_round_account_witness :
  ∃ w' l' p',
    <["losses" := 1]> stats0 !! "wins" = Some w'
    ∧ <["losses" := 1]> stats0 !! "losses" = Some l'
    ∧ <["losses" := 1]> stats0 !! "pushes" = Some p'
    ∧ w' + l' + p' = 0 + 0 + 0 + 1 ∧ 0 ≤ w' ∧ 0 ≤ l' ∧ 0 ≤ p'
    ∧ Z.abs (90 - 100) ≤ Z.max 10 (if bool_decide (2 * 10 ≤ 100) then 2 * 10 else 10)
    ∧ Z.abs (90 - 100) ≤ 100
    ∧ (100 < 90 → w' = 0 + 1)
    ∧ (90 < 100 → l' = 0 + 1).
Proof.
  refine (play_round_account 100 stats0 10
    [("5", SPADES); ("6", CLUBS); ("10", DIAMONDS); ("9", HEARTS); ("9", SPADES)] ["S"]
    (RoundEnd 90 (<["losses" := 1]> stats0) [("9", SPADES); ("9", HEARTS)]
       [("10", DIAMONDS); ("6", CLUBS); ("5", SPADES)] [] []) 0 0 0
    eq_refl eq_refl eq_refl _ eq_refl).
  lia.
Defined.

(** ** resolve_game and the counters *)

(** X19: [resolve_game] needs only the counter of the outcome: on hands that
    have a value it raises exactly when that counter is missing, and what
    it raises is a [KeyError]. *)
Theorem resolve_game_KeyError (player dealer : list card) (bet money : Z)
    (stats : gmap string Z) (pv dv : Z) :
  get_hand_value player = Ok pv → get_hand_value dealer = Ok dv →
  ∃ key,
    key = (if bool_decide (21 < pv ∨ (dv ≤ 21 ∧ pv < dv)) then "losses"
           else if bool_decide (21 < dv ∨ dv < pv) then "wins" else "pushes")
    ∧ (stats !! key = None → resolve_game player dealer bet money stats = Raise KeyError)
    ∧ (is_Some (stats !! key) →
         ∃ money' stats', resolve_game player dealer bet money stats = Ok (money', stats')
                        ∧ dom stats' = dom stats).
Proof.
  intros Hp Hd. eexists. split; [reflexivity|].
  rewrite (resolve_game_cases _ _ _ _ _ _ _ Hp Hd).
  repeat case_bool_decide; unfold incr; split.
  all: try (intros ->; reflexivity).
  all: intros [n Hn]; rewrite Hn; simpl; do 2 eexists; split; [reflexivity|].
  all: apply dom_insert_lookup_L; eauto.
Qed.

Lemma resolve_game_KeyError_witness :
  resolve_game [("9", HEARTS); ("9", SPADES)] [("10", CLUBS); ("K", HEARTS)] 10 100
    {[ "wins" := 3 ]} = Raise KeyError.
Proof.
  destruct (resolve_game_KeyError [("9", HEARTS); ("9", SPADES)]
              [("10", CLUBS); ("K", HEARTS)] 10 100 {[ "wins" := 3 ]} 18 20 eq_refl eq_refl)
    as (key & -> & Hnone & _).
  apply Hnone. reflexivity.
Defined.

(** ** Save and load *)

Lemma save_game_Ok (money : Z) (stats : gmap string Z) (file : save_file) :
  save_game money stats = Ok file →
  ∃ w l p, stats !! "wins" = Some w ∧ stats !! "losses" = Some l
         ∧ stats !! "pushes" = Some p
         ∧ file = Json (JDict {[ "money" := JInt money; "wins" := JInt w;
                                 "losses" := JInt l; "pushes" := JInt p ]}).
Proof.
  unfold save_game.
  destruct (stats !! "wins") as [w|], (stats !! "losses") as [l|],
    (stats !! "pushes") as [p|]; try discriminate.
  intros [= <-]. by exists w, l, p.
Qed.



(** ** get_bet *)


Lemma get_bet_Ok (max_bet : Z) (stdin rest : list string) (bet : Z) :
  get_bet max_bet stdin = Ok (bet, rest) →
  ∃ skipped line,
    stdin = skipped ++ line :: rest
    ∧ Forall (λ line, no_bet max_bet line = true) skipped
    ∧ Py.isdigit (Py.upper (Py.strip line)) = true
    ∧ Py.int (Py.upper (Py.strip line)) = Ok bet.
Proof.
  induction stdin as [|line stdin IH]; simpl; [discriminate|].
  assert (Hskip : no_bet max_bet line = true →
            get_bet max_bet stdin = Ok (bet, rest) →
            ∃ skipped line0,
              line :: stdin = skipped ++ line0 :: rest
              ∧ Forall (λ line, no_bet max_bet line = true) skipped
              ∧ Py.isdigit (Py.upper (Py.strip line0)) = true
              ∧ Py.int (Py.upper (Py.strip line0)) = Ok bet).
  { intros Hline (skipped & line0 & -> & Hskipped & Hdigit & Hint)%IH.
    exists (line :: skipped), line0. split_and!; [done|by constructor|done..]. }
  unfold no_bet in Hskip.
  case_bool_decide as Hquit; [discriminate|].
  destruct (Py.isdigit _) eqn:Hdigit; simpl in *; [|by apply Hskip].
  destruct (Py.int _) as [n|] eqn:Hint; simpl in *; [|discriminate].
  case_bool_decide as Hrange; [|by apply Hskip].
  intros [= <- <-]. exists [], line. by split_and!.
Qed.




(** ** The loop of game *)

Lemma play_round_money (m : Z) (stats : gmap string Z) (b : Z)
    (deck : list card) (stdin : list string) (r : round_end) :
  0 < m → 1 ≤ b ≤ m → play_round m stats b deck stdin = Ok r → 0 ≤ money_after r.
Proof.
  intros Hm Hb Hr. unfold play_round in Hr. inv_result Hr.
  match goal with H : player_turn _ _ _ _ _ _ = Ok ?t |- _ =>
    apply player_turn_bet in H as Hbet; destruct (surrendered t) eqn:Hs end.
  - inv_result Hr. subst r. simpl.
    destruct Hbet as [->|(_ & _ & [=] & _)].
    assert (b `div` 2 ≤ b) by (apply Z.div_le_upper_bound; lia). lia.
  - inv_result Hr. subst r. simpl.
    match goal with H : resolve_game _ _ _ _ _ = _ |- _ =>
      apply resolve_game_money in H end.
    lia.
Qed.

(** X24: One iteration of the loop of [game]: with nothing left it saves the
    state it has and ends the program; otherwise it reads a bet, plays a
    round, saves the state the round ends in, and that state has a bankroll
    that is not negative and reads back from the record saved; the
    iteration has read three lines at least: a bet, a move, and the line
    that continues. *)
Theorem game_iteration_saves (money : Z) (stats : gmap string Z)
    (deck : list card) (stdin : list string) (it : iteration) :
  game_iteration money stats deck stdin = Ok it →
  match it with
  | GameOver saved => money ≤ 0 ∧ save_game money stats = Ok saved
  | NextRound r saved =>
      0 < money ∧ 0 ≤ money_after r
      ∧ save_game (money_after r) (stats_after r) = Ok saved
      ∧ (∃ w l p,
           stats_after r !! "wins" = Some w ∧ stats_after r !! "losses" = Some l
           ∧ stats_after r !! "pushes" = Some p
           ∧ load_game saved =
               Ok (JInt (money_after r), {[ "wins" := JInt w; "losses" := JInt l;
                                            "pushes" := JInt p ]}))
      ∧ (length (stdin_left r) + 3 ≤ length stdin)%nat
  end.
Proof.
  unfold game_iteration. case_bool_decide as Hm; intros Hit; inv_result Hit.
  - by subst it.
  - destruct (stdin_left _) as [|enter left] eqn:Hleft; [discriminate|].
    injection Hit as <-. simpl.
    match goal with H : get_bet _ _ = Ok _ |- _ =>
      pose proof (get_bet_range _ _ _ _ H) as Hrange;
      apply get_bet_Ok in H as (skipped & line & -> & _) end.
    match goal with H : play_round _ _ _ _ _ = Ok _ |- _ =>
      assert (Hmoney := play_round_money _ _ _ _ _ _ (proj1 (Z.nle_gt _ _) Hm) Hrange H);
      apply play_round_cards in H
        as (? & ? & ? & ? & ? & ? & read & _ & _ & _ & Hread & Hlen) end.
    match goal with H : save_game _ _ = Ok _ |- _ =>
      pose proof H as (cw & cl & cp & Hw & Hl & Hp & Hfile)%save_game_Ok end.
    split_and!; [lia|done|done| |].
    + exists cw, cl, cp. split_and!; [done..|]. by rewrite Hfile.
    + apply (f_equal length) in Hread. rewrite Hleft in Hread.
      rewrite !length_app in *. simpl in *. lia.
Qed.

Lemma game_iteration_saves_witness :
  0 < 100 ∧ 0 ≤ 90
  ∧ save_game 90 (<["losses" := 1]> stats0)
    = Ok (Json (JDict {[ "money" := JInt 90; "wins" := JInt 0;
                         "losses" := JInt 1; "pushes" := JInt 0 ]}))
  ∧ (∃ w l p,
       <["losses" := 1]> stats0 !! "wins" = Some w
       ∧ <["losses" := 1]> stats0 !! "losses" = Some l
       ∧ <["losses" := 1]> stats0 !! "pushes" = Some p
       ∧ load_game (Json (JDict {[ "money" := JInt 90; "wins" := JInt 0;
                                   "losses" := JInt 1; "pushes" := JInt 0 ]}))
         = Ok (JInt 90, {[ "wins" := JInt w; "losses" := JInt l; "pushes" := JInt p ]}))
  ∧ (length (@nil string) + 3 ≤ length ["abc"; "0"; "20"; "su"; ""])%nat.
Proof.
  exact (game_iteration_saves 100 stats0
    [("7", CLUBS); ("10", DIAMONDS); ("9", HEARTS); ("10", HEARTS)]
    ["abc"; "0"; "20"; "su"; ""]
    (NextRound
       (RoundEnd 90 (<["losses" := 1]> stats0) [("10", HEARTS); ("9", HEARTS)]
          [("10", DIAMONDS); ("7", CLUBS)] [] [])
       (Json (JDict {[ "money" := JInt 90; "wins" := JInt 0;
                       "losses" := JInt 1; "pushes" := JInt 0 ]})))
    eq_refl).
Defined.

(** ** The cards as they are printed *)

Lemma string_app_cons (c : ascii) (s1 s2 : string) :
  (String c s1 ++ s2)%string = String c (s1 ++ s2).
Proof. reflexivity. Qed.

Lemma string_app_assoc (s1 s2 s3 : string) :
  ((s1 ++ s2) ++ s3 = s1 ++ s2 ++ s3)%string.
Proof.
  induction s1 as [|c s1 IH]; [reflexivity|]. by rewrite !string_app_cons, IH.
Qed.

Lemma string_app_nil_r (s : string) : (s ++ "")%string = s.
Proof. induction s as [|c s IH]; [reflexivity|]. by rewrite string_app_cons, IH. Qed.

Lemma len_app (s1 s2 : string) :
  Text.len (s1 ++ s2) = (Text.len s1 + Text.len s2)%nat.
Proof.
  induction s1 as [|c s1 IH]; [reflexivity|]. rewrite string_app_cons. simpl.
  destruct (_ && _); simpl; by rewrite IH.
Qed.

Lemma len_spaces (n : nat) : Text.len (Text.spaces n) = n.
Proof. induction n as [|n IH]; simpl; [done|]. by rewrite IH. Qed.

Lemma len_ljust (width : nat) (s : string) :
  Text.len (Text.ljust width s) = (width `max` Text.len s)%nat.
Proof. unfold Text.ljust. rewrite len_app, len_spaces. lia. Qed.

Lemma card_art_length (f : face) : length (card_art f) = 7%nat.
Proof. by destruct f as [|[rank suit]]. Qed.

Lemma card_art_width (f : face) :
  fits f → Forall (λ row, Text.len row = 11%nat) (card_art f).
Proof.
  destruct f as [|[rank suit]]; simpl.
  - intros _. apply (bool_decide_unpack _). vm_compute. exact I.
  - intros [Hrank Hsuit]. unfold ascii_card.
    repeat apply Forall_cons_2; try apply Forall_nil_2;
      rewrite ?len_app, ?len_ljust, ?Hsuit; simpl; lia.
Qed.

Ltac seven rows H :=
  do 7 (destruct rows as [|? rows]; [discriminate H|]);
  destruct rows; [|discriminate H].

(** One iteration of the loop of [display_ascii_cards] on seven rows. *)
Lemma display_step (rows : list string) (f : face) (n : nat) :
  length rows = 7%nat → Forall (λ row, Text.len row = n) rows → fits f →
  let rows' := zip_with (λ row a, row ++ a ++ "  ")%string rows (card_art f) in
  length rows' = 7%nat ∧ Forall (λ row, Text.len row = (n + 13)%nat) rows'.
Proof.
  intros Hlen Hrows Hf rows'. subst rows'.
  pose proof (card_art_length f) as Hart. pose proof (card_art_width f Hf) as Hwidth.
  remember (card_art f) as art eqn:Heq. clear Heq. seven art Hart.
  seven rows Hlen. simpl. split; [done|].
  repeat match goal with H : Forall _ (_ :: _) |- _ => apply Forall_cons in H as [? H] end.
  repeat apply Forall_cons_2; try apply Forall_nil_2; rewrite !len_app; simpl; lia.
Qed.

Lemma display_loop_width (cards : list face) : ∀ (rows : list string) (n : nat),
  length rows = 7%nat → Forall (λ row, Text.len row = n) rows → Forall fits cards →
  let rows' := foldl (λ rows card, zip_with (λ row a, row ++ a ++ "  ")%string rows
                                     (card_art card)) rows cards in
  length rows' = 7%nat ∧ Forall (λ row, Text.len row = (n + 13 * length cards)%nat) rows'.
Proof.
  induction cards as [|f cards IH]; intros rows n Hlen Hrows Hcards; cbn [foldl length].
  - split; [done|]. by rewrite Nat.mul_0_r, Nat.add_0_r.
  - apply Forall_cons in Hcards as [Hf Hcards].
    destruct (display_step rows f n Hlen Hrows Hf) as [Hlen' Hrows'].
    destruct (IH _ _ Hlen' Hrows' Hcards) as [Hlen'' Hrows''].
    split; [done|].
    replace (n + 13 * S (length cards))%nat with (n + 13 + 13 * length cards)%nat by lia.
    exact Hrows''.
Qed.

(** X25: What [display_ascii_cards] joins is a rectangle: seven rows, each 13
    characters wide per card, when every card fits its frame; the cards of
    the deck all do. *)
Theorem display_rows_width (cards : list face) :
  Forall fits cards →
  length (display_rows cards) = 7%nat
  ∧ Forall (λ row, Text.len row = (13 * length cards)%nat) (display_rows cards).
Proof.
  intros Hcards. unfold display_rows.
  apply (display_loop_width cards (replicate 7 "") 0%nat); [done| |done].
  by repeat constructor.
Qed.

Lemma deck_fits : Forall (λ c, fits (Face c)) fresh_deck.
Proof.
  apply Forall_forall. intros [rank suit] Hc.
  assert (Hok : forallb (λ c : card, (Text.len c.1 <=? 2)%nat && (Text.len c.2 =? 1)%nat)
                  fresh_deck = true) by (vm_compute; reflexivity).
  rewrite forallb_forall in Hok. apply list_elem_of_In, Hok in Hc. simpl in *.
  apply andb_prop in Hc as [H1 H2].
  split; [by apply Nat.leb_le|by apply Nat.eqb_eq].
Qed.

Lemma display_rows_width_witness :
  length (display_rows (Backside :: (Face <$> fresh_deck))) = 7%nat
  ∧ Forall (λ row, Text.len row = (13 * length (Backside :: (Face <$> fresh_deck)))%nat)
      (display_rows (Backside :: (Face <$> fresh_deck))).
Proof.
  apply (display_rows_width (Backside :: (Face <$> fresh_deck))).
  apply Forall_cons_2; [exact I|]. apply Forall_fmap. exact deck_fits.
Defined.

Lemma display_rows_snoc (cards : list face) (f : face) :
  display_rows (cards ++ [f])
  = zip_with (λ row a, row ++ a ++ "  ")%string (display_rows cards) (card_art f).
Proof. unfold display_rows. by rewrite foldl_snoc. Qed.

Lemma display_rows_length (cards : list face) : length (display_rows cards) = 7%nat.
Proof.
  induction cards as [|f cards IH] using rev_ind; [reflexivity|].
  rewrite display_rows_snoc, length_zip_with, IH, card_art_length. reflexivity.
Qed.

Lemma display_loop_app (cards : list face) : ∀ rows : list string,
  length rows = 7%nat →
  foldl (λ rows card, zip_with (λ row a, row ++ a ++ "  ")%string rows (card_art card))
    rows cards
  = zip_with String.append rows (display_rows cards).
Proof.
  induction cards as [|f cards IH] using rev_ind; intros rows Hlen.
  - seven rows Hlen. simpl. by rewrite !string_app_nil_r.
  - rewrite foldl_snoc, (IH rows Hlen), display_rows_snoc.
    pose proof (card_art_length f) as Hart.
    pose proof (display_rows_length cards) as Hlen'.
    remember (card_art f) as art eqn:Heq. clear Heq. seven art Hart.
    remember (display_rows cards) as rows' eqn:Heq. clear Heq. seven rows' Hlen'.
    seven rows Hlen. simpl. by rewrite !string_app_assoc.
Qed.

Lemma display_rows_concat (cards1 cards2 : list face) :
  display_rows (cards1 ++ cards2)
  = zip_with String.append (display_rows cards1) (display_rows cards2).
Proof.
  unfold display_rows at 1. rewrite foldl_app.
  apply display_loop_app, display_rows_length.
Qed.

(** X26: The picture of a hand is the picture of its first cards with the
    picture of the others to its right, row by row; the picture of no card
    is seven empty rows. *)
Theorem display_rows_app (cards1 cards2 : list face) :
  display_rows (cards1 ++ cards2)
  = zip_with String.append (display_rows cards1) (display_rows cards2)
  ∧ display_rows [] = replicate 7 ""
  ∧ length (display_rows cards1) = 7%nat.
Proof.
  split_and!; [apply display_rows_concat|reflexivity|apply display_rows_length].
Qed.

(** ** display_hands *)

(** X27: While the dealer's hand is hidden, what [display_hands] prints shows
    the back of a card in the place of the dealer's first card, also when
    the dealer has no card, and the other cards to its right; nothing of it
    depends on the first card, and whether it raises depends on the
    player's hand only. *)
Theorem display_hands_hides_first_card (player dealer : list card) :
  (∀ c c', display_hands_out player (c :: dealer) false
           = display_hands_out player (c' :: dealer) false)
  ∧ display_hands_out player [] false
    = (v ← get_hand_value player;
       Ok [ ""; "DEALER:"; display_ascii_cards [Backside];
            (Text.newline ++ "PLAYER (" ++ Py.str v ++ "):")%string;
            display_ascii_cards (Face <$> player) ])
  ∧ (∀ c, display_rows (Backside :: (Face <$> drop 1 (c :: dealer)))
          = zip_with String.append (display_rows [Backside])
              (display_rows (Face <$> dealer)))
  ∧ ((∃ out, display_hands_out player dealer false = Ok out)
     ↔ ∃ v, get_hand_value player = Ok v).
Proof.
  split_and!.
  - reflexivity.
  - reflexivity.
  - intros c. exact (display_rows_concat [Backside] (Face <$> dealer)).
  - unfold display_hands_out. simpl.
    destruct (get_hand_value player) as [v|]; simpl; split; eauto; intros [? [=]].
Qed.

(** ** The loop of game, round after round *)

Lemma game_iteration_NextRound (money : Z) (stats : gmap string Z)
    (deck : list card) (stdin : list string) (r : round_end) (saved : save_file) :
  game_iteration money stats deck stdin = Ok (NextRound r saved) →
  0 < money
  ∧ ∃ bet stdin1 r0 enter,
      get_bet money stdin = Ok (bet, stdin1)
      ∧ play_round money stats bet deck stdin1 = Ok r0
      ∧ stdin_left r0 = enter :: stdin_left r
      ∧ money_after r = money_after r0 ∧ stats_after r = stats_after r0.
Proof.
  unfold game_iteration. case_bool_decide as Hm; intros Hit; inv_result Hit;
    [discriminate|].
  destruct (stdin_left _) as [|enter left] eqn:Hleft; [discriminate|].
  injection Hit as <- _. simpl. split; [lia|]. eauto 10.
Qed.

(** X28: Round after round, from a bankroll that is not negative and with the
    three counters in place: at the top of the loop after n rounds the
    bankroll is not negative and is at most 2^n times the first one, the
    counters have gained n together and none has decreased, and three
    lines of input at least have been read per round, so that the input
    bounds the number of rounds. *)
Theorem game_rounds_invariant (money : Z) (stats : gmap string Z) (stdin : list string)
    (n : nat) (money' : Z) (stats' : gmap string Z) (stdin' : list string) (w l p : Z) :
  game_rounds money stats stdin n money' stats' stdin' →
  stats !! "wins" = Some w → stats !! "losses" = Some l → stats !! "pushes" = Some p →
  0 ≤ money →
  0 ≤ money' ≤ 2 ^ Z.of_nat n * money
  ∧ (∃ w' l' p',
       stats' !! "wins" = Some w' ∧ stats' !! "losses" = Some l'
       ∧ stats' !! "pushes" = Some p'
       ∧ w' + l' + p' = w + l + p + Z.of_nat n ∧ w ≤ w' ∧ l ≤ l' ∧ p ≤ p')
  ∧ (length stdin' + 3 * n ≤ length stdin)%nat.
Proof.
  intros Hrounds. revert w l p.
  induction Hrounds as [money stats stdin
                       |money stats stdin deck r saved n money' stats' stdin' Hit _ IH];
    intros w l p Hw Hl Hp Hmoney.
  - split_and!; [lia|simpl; lia| |lia]. exists w, l, p. split_and!; [done..|lia|lia|lia|lia].
  - apply game_iteration_NextRound
      in Hit as (Hpos & bet & stdin1 & r0 & enter & Hbet & Hr0 & Hleft & Hm & Hs).
    pose proof (get_bet_range _ _ _ _ Hbet) as Hrange.
    apply get_bet_Ok in Hbet as (skipped & line & -> & _).
    pose proof (play_round_money _ _ _ _ _ _ Hpos Hrange Hr0) as Hnonneg.
    pose proof (play_round_outcome _ _ _ _ _ _ w l p Hw Hl Hp Hr0) as (b & Hb & Hcases).
    apply play_round_cards in Hr0
      as (? & ? & ? & ? & ? & ? & read & _ & _ & _ & Hread & Hlen).
    assert (Hdiv : 0 ≤ bet `div` 2) by (apply Z.div_pos; lia).
    assert (Hpow : 0 < 2 ^ Z.of_nat n) by (apply Z.pow_pos_nonneg; lia).
    rewrite Nat2Z.inj_succ, Z.pow_succ_r by lia.
    rewrite Hm, Hs in IH.
    assert (Hlines : (length (stdin_left r) + 3 ≤ length (skipped ++ line :: stdin1))%nat).
    { apply (f_equal length) in Hread. rewrite Hleft in Hread.
      rewrite !length_app in *. simpl in *. lia. }
    assert (Hstep : ∀ w1 l1 p1,
              stats_after r0 !! "wins" = Some w1 → stats_after r0 !! "losses" = Some l1 →
              stats_after r0 !! "pushes" = Some p1 →
              w1 + l1 + p1 = w + l + p + 1 → w ≤ w1 → l ≤ l1 → p ≤ p1 →
              money_after r0 ≤ 2 * money →
              0 ≤ money' ≤ 2 * 2 ^ Z.of_nat n * money
              ∧ (∃ w' l' p',
                   stats' !! "wins" = Some w' ∧ stats' !! "losses" = Some l'
                   ∧ stats' !! "pushes" = Some p'
                   ∧ w' + l' + p' = w + l + p + Z.succ (Z.of_nat n)
                   ∧ w ≤ w' ∧ l ≤ l' ∧ p ≤ p')
              ∧ (length stdin' + 3 * S n ≤ length (skipped ++ line :: stdin1))%nat).
    { intros w1 l1 p1 Hw1 Hl1 Hp1 Hsum ? ? ? Hup.
      destruct (IH w1 l1 p1 Hw1 Hl1 Hp1 Hnonneg)
        as ([Hlow Hhigh] & (w' & l' & p' & ? & ? & ? & ? & ? & ? & ?) & Hin).
      split_and!; [done|nia| |lia].
      exists w', l', p'. split_and!; [done..|lia|lia|lia|lia]. }
    destruct Hcases as [[Hmo Hst]|[[Hmo Hst]|[[Hmo Hst]|[Hmo Hst]]]]; rewrite Hst in Hstep.
    + apply (Hstep (w + 1) l p); rewrite ?lookup_insert_eq, ?lookup_insert_ne by done;
        try done; lia.
    + apply (Hstep w (l + 1) p); rewrite ?lookup_insert_eq, ?lookup_insert_ne by done;
        try done; lia.
    + apply (Hstep w l (p + 1)); rewrite ?lookup_insert_eq, ?lookup_insert_ne by done;
        try done; lia.
    + apply (Hstep w (l + 1) p); rewrite ?lookup_insert_eq, ?lookup_insert_ne by done;
        try done; lia.
Qed.

Lemma game_rounds_invariant_witness :
  0 ≤ 90 ≤ 2 ^ Z.of_nat 1 * 100
  ∧ (∃ w' l' p',
       <["losses" := 1]> stats0 !! "wins" = Some w'
       ∧ <["losses" := 1]> stats0 !! "losses" = Some l'
       ∧ <["losses" := 1]> stats0 !! "pushes" = Some p'
       ∧ w' + l' + p' = 0 + 0 + 0 + Z.of_nat 1 ∧ 0 ≤ w' ∧ 0 ≤ l' ∧ 0 ≤ p')
  ∧ (length ["quit"] + 3 * 1 ≤ length ["abc"; "0"; "20"; "su"; ""; "quit"])%nat.
Proof.
  refine (game_rounds_invariant 100 stats0 ["abc"; "0"; "20"; "su"; ""; "quit"] 1
            90 (<["losses" := 1]> stats0) ["quit"] 0 0 0 _ eq_refl eq_refl eq_refl _).
  - apply (rounds_next 100 stats0 ["abc"; "0"; "20"; "su"; ""; "quit"]
             [("7", CLUBS); ("10", DIAMONDS); ("9", HEARTS); ("10", HEARTS)]
             (RoundEnd 90 (<["losses" := 1]> stats0) [("10", HEARTS); ("9", HEARTS)]
                [("10", DIAMONDS); ("7", CLUBS)] [] ["quit"])
             (Json (JDict {[ "money" := JInt 90; "wins" := JInt 0;
                             "losses" := JInt 1; "pushes" := JInt 0 ]}))).
    + reflexivity.
    + apply rounds_none.
  - lia.
Defined.

(** ** A round that returns *)

(** X29: With the deck of [get_deck] and the three counters in place, the
    round of a player who stands at once returns: the player keeps the two
    cards dealt, worth 21 or less, the dealer ends between 17 and 26, the
    line is the only one read, and the bankroll gains the bet if the dealer
    is bust or below the player, loses it if the dealer is not bust and
    above the player, and stays on a tie. *)
Theorem play_round_stand (money : Z) (stats : gmap string Z) (bet : Z)
    (deck : list card) (line : string) (stdin : list string) :
  shuffled deck →
  is_Some (stats !! "wins") → is_Some (stats !! "losses") → is_Some (stats !! "pushes") →
  Py.upper (Py.strip line) = "S" →
  ∃ r pv dv,
    play_round money stats bet deck (line :: stdin) = Ok r
    ∧ player_hand r = popped 2 deck
    ∧ take 2 (dealer_hand r) = drop 2 (popped 4 deck)
    ∧ stdin_left r = stdin
    ∧ get_hand_value (player_hand r) = Ok pv ∧ 4 ≤ pv ≤ 21
    ∧ get_hand_value (dealer_hand r) = Ok dv ∧ 17 ≤ dv ≤ 26
    ∧ money_after r =
        (if bool_decide (dv ≤ 21 ∧ pv < dv) then money - bet
         else if bool_decide (21 < dv ∨ dv < pv) then money + bet else money).
Proof.
  intros (Hlen & _ & Hall)%shuffled_deck [w Hw] [l Hl] [p Hpu] Hline.
  destruct deck as [|c1 deck _] using rev_ind; [simpl in Hlen; lia|].
  destruct deck as [|c2 deck _] using rev_ind; [simpl in Hlen; lia|].
  destruct deck as [|c3 deck _] using rev_ind; [simpl in Hlen; lia|].
  destruct deck as [|c4 deck _] using rev_ind; [simpl in Hlen; lia|].
  rewrite !length_app in Hlen. simpl in Hlen.
  repeat (apply Forall_app in Hall as [Hall [? _]%Forall_cons]).
  assert (Hdh : Forall (λ c, c ∈ fresh_deck) [c3; c4])
    by (repeat (apply Forall_cons_2; [assumption|]); constructor).
  destruct (two_cards_ok_value c1 c2) as (pv & Hpv & Hpv21); [done..|].
  destruct (two_cards_ok_value c3 c4) as (dv0 & Hdv0 & Hdv021); [done..|].
  destruct (dealer_loop_returns [c3; c4] deck) as (dh & dk & Hloop); [done|done|lia|].
  pose proof (dealer_loop_value _ _ _ _ Hdh Hall Hloop) as (dv & Hdv & Hdv17 & Hdv26).
  pose proof Hloop as (drawn & Hdrawn & _)%dealer_loop_trace.
  assert (dv ≤ 26).
  { destruct (decide (dh = [c3; c4])) as [Heq|Hne]; [|by apply Hdv26].
    rewrite Heq in Hdv. assert (dv = dv0) by congruence. lia. }
  unfold play_round. rewrite deal_two_snoc. simpl. rewrite deal_two_snoc. simpl.
  unfold player_turn. rewrite (display_hands_Ok _ _ _ _ _ Hpv Hdv0). simpl.
  rewrite Hline. simpl.
  unfold dealer_turn. rewrite Hpv. simpl. rewrite bool_decide_eq_false_2 by lia.
  rewrite Hloop. simpl. rewrite (resolve_game_cases _ _ _ _ _ _ _ Hpv Hdv).
  unfold popped. rewrite !reverse_app. simpl.
  repeat case_bool_decide; try lia;
    try rewrite (incr_Some _ _ _ Hw); try rewrite (incr_Some _ _ _ Hl);
    try rewrite (incr_Some _ _ _ Hpu); simpl;
    eexists _, pv, dv; split_and!; try reflexivity; try done; try lia; simpl.
  all: try (rewrite Hdrawn; reflexivity).
  all: repeat case_bool_decide; reflexivity || lia.
Qed.

Lemma play_round_stand_witness :
  ∃ r pv dv,
    play_round 100 stats0 10 fresh_deck (" s " :: ["next"]) = Ok r
    ∧ player_hand r = popped 2 fresh_deck
    ∧ take 2 (dealer_hand r) = drop 2 (popped 4 fresh_deck)
    ∧ stdin_left r = ["next"]
    ∧ get_hand_value (player_hand r) = Ok pv ∧ 4 ≤ pv ≤ 21
    ∧ get_hand_value (dealer_hand r) = Ok dv ∧ 17 ≤ dv ≤ 26
    ∧ money_after r =
        (if bool_decide (dv ≤ 21 ∧ pv < dv) then 100 - 10
         else if bool_decide (21 < dv ∨ dv < pv) then 100 + 10 else 100).
Proof.
  apply (play_round_stand 100 stats0 10 fresh_deck " s " ["next"]).
  - unfold shuffled. reflexivity.
  - by exists 0.
  - by exists 0.
  - by exists 0.
  - reflexivity.
Defined.
